(** * MIET schedule parser: calendar_automation.py

    A shallow embedding of the core of [calendar_automation.py]: the
    [ScheduleEntry] class with its rich comparisons, the name normaliser
    [get_class_name], the merger [merge_list_of_classes] and the projection
    of entries onto calendar events done by [create_ics_file].

    Modelling conventions.
    - Python [int] is [Z].
    - Python [str] is [string], holding the UTF-8 encoding of the text.  UTF-8
      keeps the order of code points and is self-synchronising, so [==], [<],
      [in], [split], [replace] and [+] on the encoded bytes agree with the
      same operations on the code points.
    - A Python list of objects is a [list] of records; the entries the
      script builds are all distinct objects, so no aliasing is modelled.
    - An exception is a value of type [result]; the only exception the
      modelled code can raise is [IndexError].
    - The network fetch, the parsing of the date string by [strptime] and
      the serialisation by [to_ical] are outside the model; a [datetime] is
      an exact position on the proleptic Gregorian time line, without the
      bounds the library puts on representable years. *)

From Stdlib Require Import ZArith String Ascii List Lia Bool Sorted.
From stdpp Require Import base option list strings gmap.

Local Open Scope Z_scope.

(** * Part I: the program *)

(** ** Exceptions *)

Inductive exn : Type := IndexError.

Inductive result (A : Type) : Type :=
| Ok (a : A)
| Raise (e : exn).
Arguments Ok {A} a.
Arguments Raise {A} e.

#[global] Instance result_ret : MRet result := fun A a => Ok a.
#[global] Instance result_bind : MBind result := fun A B f m =>
  match m with
  | Ok a => f a
  | Raise e => Raise e
  end.

(** ** Python list subscripts

    [l[i]] and [del l[i]] accept a negative subscript, counted from the
    end, and raise [IndexError] outside [-len(l) .. len(l)-1]. *)

Section Subscript.
Context {A : Type}.

Definition norm_index (l : list A) (i : Z) : option nat :=
  let n := Z.of_nat (length l) in
  let j := if i <? 0 then i + n else i in
  if (0 <=? j) && (j <? n) then Some (Z.to_nat j) else None.

Definition getitem (l : list A) (i : Z) : result A :=
  match norm_index l i with
  | Some j => match l !! j with Some x => Ok x | None => Raise IndexError end
  | None => Raise IndexError
  end.

Definition delitem (l : list A) (i : Z) : result (list A) :=
  match norm_index l i with
  | Some j => Ok (delete j l)
  | None => Raise IndexError
  end.

(** [l[i].attr = ...]: the object found at [l[i]] is updated in place. *)
Definition setattr_item (f : A → A) (l : list A) (i : Z) : result (list A) :=
  match norm_index l i with
  | Some j => Ok (alter f j l)
  | None => Raise IndexError
  end.

End Subscript.

(** ** Rich comparison

    [==] and [<] as Python defines them on [int], [str] and tuples.  A tuple
    is compared item by item: the first pair of items that are not [==]
    decides [<]. *)

Class Comparable (A : Type) : Type := {
  py_eq : A → A → bool;
  py_lt : A → A → bool
}.

#[global] Instance int_comparable : Comparable Z :=
  {| py_eq := Z.eqb; py_lt := Z.ltb |}.

#[global] Instance str_comparable : Comparable string :=
  {| py_eq := String.eqb; py_lt := String.ltb |}.

#[global] Instance tuple_comparable {A B : Type}
    `{Comparable A, Comparable B} : Comparable (A * B) :=
  {| py_eq := fun x y => py_eq (fst x) (fst y) && py_eq (snd x) (snd y);
     py_lt := fun x y =>
       if py_eq (fst x) (fst y) then py_lt (snd x) (snd y)
       else py_lt (fst x) (fst y) |}.

(** ** list.sort

    [list.sort()] is a stable sort that only calls [<].  For a strict weak
    order the stable sorted arrangement of a list is unique, so the sort is
    modelled by the stable insertion sort: an item goes in front of the first
    item that is not smaller than it. *)

Section Sort.
Context {A : Type} (lt : A → A → bool).

Fixpoint insert_sorted (x : A) (l : list A) : list A :=
  match l with
  | [] => [x]
  | y :: l' => if lt y x then y :: insert_sorted x l' else x :: y :: l'
  end.

Fixpoint list_sort (l : list A) : list A :=
  match l with
  | [] => []
  | x :: l' => insert_sorted x (list_sort l')
  end.

End Sort.

(** ** ScheduleEntry *)

Record ScheduleEntry : Type := mkScheduleEntry {
  class_name : string;
  week_code : Z;
  room_number : string;
  week_day : Z;
  slot_number : Z;
  duration : Z
}.

(** [ScheduleEntry.__init__]: a new entry lasts one slot. *)
Definition new_entry (class_name : string) (week_code : Z)
    (room_number : string) (week_day slot_number : Z) : ScheduleEntry :=
  mkScheduleEntry class_name week_code room_number week_day slot_number 1.

(** An assignment to [entry.duration]. *)
Definition set_duration (d : Z) (e : ScheduleEntry) : ScheduleEntry :=
  mkScheduleEntry (class_name e) (week_code e) (room_number e) (week_day e)
    (slot_number e) d.

(** The tuple that both [__eq__] and [__lt__] build. *)
Definition entry_key (e : ScheduleEntry) : Z * (Z * (Z * (string * string))) :=
  (week_code e, (week_day e, (slot_number e, (room_number e, class_name e)))).

(** [ScheduleEntry.__eq__] *)
Definition entry_eq (self other : ScheduleEntry) : bool :=
  py_eq (entry_key self) (entry_key other).

(** [ScheduleEntry.__lt__] *)
Definition entry_lt (self other : ScheduleEntry) : bool :=
  py_lt (entry_key self) (entry_key other).

#[global] Instance entry_comparable : Comparable ScheduleEntry :=
  {| py_eq := entry_eq; py_lt := entry_lt |}.

Definition is_aligned_class (self other : ScheduleEntry) : bool :=
  py_eq (class_name self) (class_name other) &&
  py_eq (week_code self) (week_code other) &&
  py_eq (week_day self) (week_day other) &&
  py_eq (room_number self) (room_number other) &&
  (Z.abs (slot_number self - slot_number other) =? 1).

(** ** get_class_name *)

(** [sub in s] *)
Fixpoint str_contains (sub s : string) : bool :=
  String.prefix sub s ||
  match s with
  | EmptyString => false
  | String _ s' => str_contains sub s'
  end.

(** [s.split(sep)] for a non-empty [sep], scanning from the left.  [skip]
    counts the characters of a separator just found that are still to be
    passed over; the result is the piece being read and the pieces after
    it. *)
Fixpoint str_split_aux (sep : string) (skip : nat) (s : string)
    : string * list string :=
  match s with
  | EmptyString => (EmptyString, [])
  | String c s' =>
      match skip with
      | S skip' => str_split_aux sep skip' s'
      | O =>
          if String.prefix sep s then
            let '(piece, pieces) :=
              str_split_aux sep (String.length sep - 1) s' in
            (EmptyString, piece :: pieces)
          else
            let '(piece, pieces) := str_split_aux sep 0 s' in
            (String c piece, pieces)
      end
  end.

Definition str_split (sep s : string) : list string :=
  let '(piece, pieces) := str_split_aux sep 0 s in piece :: pieces.

(** [s.replace(old, new)] for a non-empty [old]: every occurrence of [old]
    found scanning from the left, occurrences not overlapping. *)
Fixpoint str_replace_aux (old new : string) (skip : nat) (s : string) : string :=
  match s with
  | EmptyString => EmptyString
  | String c s' =>
      match skip with
      | S skip' => str_replace_aux old new skip' s'
      | O =>
          if String.prefix old s then
            new +:+ str_replace_aux old new (String.length old - 1) s'
          else String c (str_replace_aux old new 0 s')
      end
  end.

Definition str_replace (old new s : string) : string :=
  str_replace_aux old new 0 s.

Section GetClassName.
Variable class_names_cast : gmap string string.

Definition get_class_name (name : string) : result string :=
  let long_name := name in
  let class_type := "" in
  let res_name := "" in
  '(class_type, long_name) ←
    (if str_contains " [" name then
       piece ← getitem (str_split " [" name) 1;
       let class_type := class_type +:+ (" [" +:+ piece) in
       mret (class_type, str_replace class_type "" long_name)
     else mret (class_type, long_name));
  let res_name :=
    match class_names_cast !! long_name with
    | Some alias => res_name +:+ alias
    | None => res_name +:+ long_name
    end in
  mret (res_name +:+ class_type).

End GetClassName.

(** The table in the configuration area of the script. *)
Definition class_names_cast : gmap string string :=
  <["Микропроцессорные средства и системы" := "МПСиС"]>
  (<["Микропроцессорные системы и средства" := "МПСиС"]> ∅).

(** ** merge_list_of_classes *)

(** [class_list[i].duration += 1] *)
Definition incr_duration (e : ScheduleEntry) : ScheduleEntry :=
  set_duration (duration e + 1) e.

(** The local variables of [merge_list_of_classes] while the loop runs. *)
Record merge_state : Type := mkMergeState {
  class_list : list ScheduleEntry;
  i : Z;
  list_len : Z
}.

(** One pass through the body of the [while]; the last component is the
    new value of [while_cond]. *)
Definition merge_body (st : merge_state) : result (merge_state * bool) :=
  let '(mkMergeState class_list i list_len) := st in
  x ← getitem class_list i;
  y ← getitem class_list (i + 1);
  '(class_list, i, list_len) ←
    (if is_aligned_class x y then
       class_list ← setattr_item incr_duration class_list i;
       class_list ← delitem class_list (i + 1);
       mret (class_list, i - 1, list_len - 1)
     else mret (class_list, i, list_len));
  let i := i + 1 in
  mret (mkMergeState class_list i list_len, i <? list_len - 1).

(** [while_cond] is [True] on entry, so the body runs before the first
    test.  [None] stands for a loop that has not finished within [fuel]
    passes. *)
Fixpoint merge_loop (fuel : nat) (st : merge_state)
    : option (result (list ScheduleEntry)) :=
  match fuel with
  | O => None
  | S fuel =>
      match merge_body st with
      | Raise e => Some (Raise e)
      | Ok (st', while_cond) =>
          if while_cond then merge_loop fuel st'
          else Some (Ok (class_list st'))
      end
  end.

Definition merge_list_of_classes_fuel (fuel : nat)
    (class_list : list ScheduleEntry) : option (result (list ScheduleEntry)) :=
  let class_list := list_sort entry_lt class_list in
  merge_loop fuel (mkMergeState class_list 0 (Z.of_nat (length class_list))).

(** The loop makes at most [len(class_list)] passes: the fuel given here
    is never used up ([merge_list_of_classes_total]), and more fuel changes
    nothing ([merge_list_of_classes_fuel_enough]). *)
Definition merge_list_of_classes (class_list : list ScheduleEntry)
    : option (result (list ScheduleEntry)) :=
  merge_list_of_classes_fuel (S (length class_list)) class_list.

(** ** datetime

    A [datetime] is the number of minutes since 00:00 of the day before
    0001-01-01 (the day of ordinal 0), a [timedelta] a number of minutes;
    every duration the script handles is a whole number of minutes. *)

Definition datetime : Type := Z.
Definition timedelta : Type := Z.

Definition days (n : Z) : timedelta := n * 1440.
Definition hours (n : Z) : timedelta := n * 60.
Definition minutes (n : Z) : timedelta := n.

(** The day number of a calendar date, as [date.toordinal] computes it. *)
Definition is_leap (year : Z) : bool :=
  (year mod 4 =? 0) && (negb (year mod 100 =? 0) || (year mod 400 =? 0)).

Definition days_before_year (year : Z) : Z :=
  let y := year - 1 in y * 365 + y / 4 - y / 100 + y / 400.

Definition days_in_month (year month : Z) : Z :=
  if month =? 2 then (if is_leap year then 29 else 28)
  else if (month =? 4) || (month =? 6) || (month =? 9) || (month =? 11) then 30
  else 31.

Definition days_before_month (year month : Z) : Z :=
  foldr (λ m n, days_in_month year (Z.of_nat m) + n) 0
    (seq 1 (Z.to_nat (month - 1))).

Definition ymd2ord (year month day : Z) : Z :=
  days_before_year year + days_before_month year month + day.

(** [datetime(year, month, day)], at 00:00, which is what
    [datetime.strptime(s, '%d-%m-%Y')] returns. *)
Definition datetime_of_date (year month day : Z) : datetime :=
  days (ymd2ord year month day).

Definition toordinal (t : datetime) : Z := t / 1440.

(** [datetime.weekday()]: Monday is 0. *)
Definition weekday (t : datetime) : Z := (toordinal t + 6) mod 7.

Definition hour (t : datetime) : Z := t mod 1440 / 60.
Definition minute (t : datetime) : Z := t mod 60.

(** ** uuid4

    [uuid4()] draws from the random source of the operating system.  The
    source is the sequence of strings that the successive evaluations of
    [str(uuid4())] yield during a run; a call consumes the first. *)
Definition entropy : Type := nat → string.

Definition uuid4 (rng : entropy) : string * entropy :=
  (rng O, λ n, rng (S n)).

(** ** create_ics_file *)

Record RRule : Type := mkRRule {
  freq : string;
  interval : Z;
  count : Z
}.

Record Event : Type := mkEvent {
  summary : string;
  dtstart : datetime;
  dtend : datetime;
  location : string;
  uid : string;
  rrule : RRule
}.

(** What a run of [create_ics_file] leaves behind: the components of the
    calendar it writes, in order, the list it was given, and the rest of
    the random source.  The body assigns to no attribute of [entry] and to
    no item of [schedule]. *)
Record ics_run : Type := mkIcsRun {
  cal : list Event;
  schedule_after : list ScheduleEntry;
  rng_after : entropy
}.

Section CreateIcsFile.
Variables (start_date : datetime).
Variables (academic_hour_duration short_recreation_duration
           long_recreation_duration repeat_number : Z).

Definition first_day_of_semester : Z := weekday start_date.

Definition pair_duration : Z := academic_hour_duration * 2.

Definition class_duration (entry : ScheduleEntry) : Z :=
  duration entry * pair_duration
  + (duration entry - 1) * short_recreation_duration.

Definition first_class_date (entry : ScheduleEntry) : datetime :=
  if (week_day entry <? first_day_of_semester) && (week_code entry =? 0) then
    let week_offset := (week_code entry + 4) * 7 in
    let day_offset := week_day entry - first_day_of_semester - 1 in
    start_date + days (week_offset + day_offset)
  else
    let week_offset := week_code entry * 7 in
    let day_offset := week_day entry - first_day_of_semester in
    start_date + days (week_offset + day_offset).

Definition start_time (entry : ScheduleEntry) : datetime :=
  let start_time := first_class_date entry + hours 9 in
  let start_time :=
    start_time + minutes (slot_number entry * (pair_duration + 10)) in
  if slot_number entry >? 2 then
    start_time + minutes (long_recreation_duration - short_recreation_duration)
  else start_time.

Definition end_time (entry : ScheduleEntry) : datetime :=
  start_time entry + minutes (class_duration entry).

(** The body of the [for] loop: the event made for [entry]. *)
Definition create_event (entry : ScheduleEntry) (rng : entropy)
    : Event * entropy :=
  let '(u, rng) := uuid4 rng in
  (mkEvent (class_name entry) (start_time entry) (end_time entry)
     (room_number entry) u (mkRRule "weekly" 4 repeat_number),
   rng).

Fixpoint create_ics_file_loop (todo : list ScheduleEntry) (cal : list Event)
    (rng : entropy) : list Event * entropy :=
  match todo with
  | [] => (cal, rng)
  | entry :: todo' =>
      let '(event, rng) := create_event entry rng in
      create_ics_file_loop todo' (cal ++ [event]) rng
  end.

Definition create_ics_file (schedule : list ScheduleEntry) (rng : entropy)
    : ics_run :=
  let '(cal, rng) := create_ics_file_loop schedule [] rng in
  mkIcsRun cal schedule rng.

End CreateIcsFile.

(** ** The cookie

    The module-level code that obtains the cookie: [re.search] with the
    pattern [wl=[a-f0-9]+;] on the text of the first response.  A match at
    a position is [wl=], the longest run of characters of [a-f0-9] that
    follows, which must not be empty, and a [;] right after that run: the
    run is taken greedily, and giving back characters of it cannot help,
    since the character after a shorter run is one of [a-f0-9] and not
    [;].  [re.search] returns the match at the leftmost position that has
    one. *)

Definition is_cookie_char (c : ascii) : bool :=
  let n := N_of_ascii c in
  ((48 <=? n) && (n <=? 57) || (97 <=? n) && (n <=? 102))%N.

(** The longest run of [a-f0-9] at the start of [s], and what follows. *)
Fixpoint cookie_run (s : string) : string * string :=
  match s with
  | EmptyString => (EmptyString, EmptyString)
  | String c s' =>
      if is_cookie_char c then
        let '(run, rest) := cookie_run s' in (String c run, rest)
      else (EmptyString, s)
  end.

(** [s[n:]] *)
Fixpoint str_drop (n : nat) (s : string) : string :=
  match n, s with
  | O, _ => s
  | S n', String _ s' => str_drop n' s'
  | S _, EmptyString => EmptyString
  end.

(** The match of the pattern that starts at the first character of [s]. *)
Definition cookie_match_at (s : string) : option string :=
  if String.prefix "wl=" s then
    match cookie_run (str_drop 3 s) with
    | (String c run, rest) =>
        if String.prefix ";" rest then Some ("wl=" +:+ String c run +:+ ";")
        else None
    | (EmptyString, _) => None
    end
  else None.

Fixpoint cookie_search (text : string) : option string :=
  match cookie_match_at text with
  | Some found => Some found
  | None =>
      match text with
      | EmptyString => None
      | String _ text' => cookie_search text'
      end
  end.

(** How the cookie code ends: with [cookie] set, or in [exit()]. *)
Inductive cookie_outcome : Type :=
| CookieSet (cookie : gmap string string)
| Exited.

Definition get_cookie (text : string) : cookie_outcome :=
  match cookie_search text with
  | Some found => CookieSet (<["Cookie" := found]> ∅)
  | None => Exited
  end.

(** ** create_list_of_classes_by_educator, create_list_of_classes_by_group

    An item of the ["Data"] list of a response, with the fields the script
    reads: [["Class"]["Name"]], [["Class"]["TeacherFull"]], [["DayNumber"]],
    [["Room"]["Name"]], [["Day"]] and [["Time"]["Code"]]. *)

Record RawClass : Type := mkRawClass {
  Class_Name : string;
  Class_TeacherFull : string;
  DayNumber : Z;
  Room_Name : string;
  Day : Z;
  Time_Code : Z
}.

Section CreateListOfClasses.
Variable class_names_cast : gmap string string.
(** [requests.get(url=url, params={"group": group}, headers=cookie)
    .json()["Data"]]: the answer of the service for a group. *)
Variable fetch : gmap string string → string → list RawClass.

(** The inner [for] of [create_list_of_classes_by_educator]. *)
Fixpoint by_educator_classes (group educator : string)
    (raw_schedule : list RawClass) (class_list : list ScheduleEntry)
    : result (list ScheduleEntry) :=
  match raw_schedule with
  | [] => mret class_list
  | double_class :: raw_schedule' =>
      if py_eq (Class_TeacherFull double_class) educator then
        name ← get_class_name class_names_cast (Class_Name double_class);
        by_educator_classes group educator raw_schedule'
          (class_list ++
             [new_entry ((name +:+ " ") +:+ group) (DayNumber double_class)
                (Room_Name double_class) (Day double_class - 1)
                (Time_Code double_class - 1)])
      else by_educator_classes group educator raw_schedule' class_list
  end.

(** The outer [for] of [create_list_of_classes_by_educator]. *)
Fixpoint by_educator_groups (groups : list string) (educator : string)
    (cookie : gmap string string) (class_list : list ScheduleEntry)
    : result (list ScheduleEntry) :=
  match groups with
  | [] => mret class_list
  | group :: groups' =>
      let raw_schedule := fetch cookie group in
      class_list ← by_educator_classes group educator raw_schedule class_list;
      by_educator_groups groups' educator cookie class_list
  end.

Definition create_list_of_classes_by_educator (groups : list string)
    (educator : string) (cookie : gmap string string)
    : result (list ScheduleEntry) :=
  by_educator_groups groups educator cookie [].

(** The [for] of [create_list_of_classes_by_group]. *)
Fixpoint by_group_classes (raw_schedule : list RawClass)
    (class_list : list ScheduleEntry) : result (list ScheduleEntry) :=
  match raw_schedule with
  | [] => mret class_list
  | double_class :: raw_schedule' =>
      name ← get_class_name class_names_cast (Class_Name double_class);
      by_group_classes raw_schedule'
        (class_list ++
           [new_entry name (DayNumber double_class) (Room_Name double_class)
              (Day double_class - 1) (Time_Code double_class - 1)])
  end.

Definition create_list_of_classes_by_group (group : string)
    (cookie : gmap string string) : result (list ScheduleEntry) :=
  by_group_classes (fetch cookie group) [].

(** ** The script

    The module-level code from the cookie to the calendar file.  The
    configuration area is the record [config]; [text] is the text of the
    first response.  In the mode for a student the script calls
    [create_list_of_classes_by_student], a name that is bound nowhere, which
    raises [NameError]. *)




End CreateListOfClasses.


(** * Part II: notions used to state the properties *)

(** The laws that make [py_lt] a strict total order and [py_eq] the
    equality of the type. *)
Class LawfulComparable (A : Type) `{Comparable A} : Prop := {
  py_eq_spec : ∀ x y : A, py_eq x y = true ↔ x = y;
  py_lt_irrefl : ∀ x : A, py_lt x x = false;
  py_lt_trans : ∀ x y z : A, py_lt x y = true → py_lt y z = true → py_lt x z = true;
  py_lt_total : ∀ x y : A, py_lt x y = false → py_lt y x = false → x = y
}.

(** No item is followed directly by a smaller one. *)
Definition ascending {A : Type} (lt : A → A → bool) : list A → Prop :=
  Sorted (λ x y, lt y x = false).

(** The lexicographic order on
    [(week_code, week_day, slot_number, room_number, class_name)], written
    out field by field; strings are ordered character by character. *)
Definition str_lexicographic (s t : string) : Prop := String.compare s t = Lt.

Definition lexicographic_spec (a b : ScheduleEntry) : Prop :=
  week_code a < week_code b ∨ week_code a = week_code b ∧
  (week_day a < week_day b ∨ week_day a = week_day b ∧
  (slot_number a < slot_number b ∨ slot_number a = slot_number b ∧
  (str_lexicographic (room_number a) (room_number b) ∨
   room_number a = room_number b ∧
   str_lexicographic (class_name a) (class_name b)))).

Definition same_five_fields (a b : ScheduleEntry) : Prop :=
  week_code a = week_code b ∧ week_day a = week_day b ∧
  slot_number a = slot_number b ∧ room_number a = room_number b ∧
  class_name a = class_name b.

(** A fresh entry of a given class, week code, room and day. *)
Definition slot_entry (name room : string) (code day slot : Z) : ScheduleEntry :=
  new_entry name code room day slot.

(** What the merge loop computes once the cursor stands on [x] with [rest]
    to its right: an aligned neighbour is absorbed into [x], any other
    neighbour becomes the next cursor position. *)
Fixpoint merge_run (x : ScheduleEntry) (rest : list ScheduleEntry)
    : list ScheduleEntry :=
  match rest with
  | [] => [x]
  | y :: rest' =>
      if is_aligned_class x y then merge_run (incr_duration x) rest'
      else x :: merge_run y rest'
  end.

Definition merge_sorted (l : list ScheduleEntry) : list ScheduleEntry :=
  match l with
  | [] => []
  | x :: rest => merge_run x rest
  end.

(** No entry is directly followed by one it is aligned with. *)
Definition unaligned : list ScheduleEntry → Prop :=
  Sorted (λ x y, is_aligned_class x y = false).

Definition total_duration (l : list ScheduleEntry) : Z :=
  foldr (λ e n, duration e + n) 0 l.

(** The alias of a base name: its entry in the table, or the name. *)
Definition alias_of (table : gmap string string) (base_name : string) : string :=
  default base_name (table !! base_name).

(** The date of the first occurrence as the specification words it. *)
Definition first_occurrence_spec (semester_start_date : datetime)
    (first_weekday : Z) (entry : ScheduleEntry) : datetime :=
  if (week_day entry <? first_weekday) && (week_code entry =? 0) then
    semester_start_date + days ((week_code entry + 4) * 7)
    + days (week_day entry - first_weekday - 1)
  else
    semester_start_date + days (week_code entry * 7)
    + days (week_day entry - first_weekday).

Definition set_uid (u : string) (event : Event) : Event :=
  mkEvent (summary event) (dtstart event) (dtend event) (location event) u
    (rrule event).

(** The events of a run: one per entry, in order, the [k]-th carrying the
    [k]-th string of the random source. *)
Fixpoint events_of (start_date : datetime)
    (academic_hour short long repeat_number : Z)
    (todo : list ScheduleEntry) (rng : entropy) : list Event :=
  match todo with
  | [] => []
  | entry :: todo' =>
      let '(event, rng) :=
        create_event start_date academic_hour short long repeat_number
          entry rng in
      event :: events_of start_date academic_hour short long repeat_number
                 todo' rng
  end.


(** An entry of the merged list comes from an entry of the input: the same
    fields, and a duration that has not shrunk. *)
Definition grown_from (l : list ScheduleEntry) (e' : ScheduleEntry) : Prop :=
  ∃ e, e ∈ l ∧ e' = set_duration (duration e') e ∧ duration e ≤ duration e'.

(** Fresh entries, as [ScheduleEntry.__init__] makes them. *)
Definition fresh : list ScheduleEntry → Prop := Forall (λ e, duration e = 1).

(** The title that [get_class_name] returns for [name]. *)
Definition normalised (table : gmap string string) (name : string) : string :=
  match get_class_name table name with
  | Ok res_name => res_name
  | Raise _ => name
  end.

(** The records of a response that name [educator] as the teacher. *)
Definition taught_by (educator : string) (double_class : RawClass) : bool :=
  py_eq (Class_TeacherFull double_class) educator.

(** The entry made from a record in the mode for an educator, and in the
    mode for a group. *)
Definition educator_entry (table : gmap string string) (group : string)
    (double_class : RawClass) : ScheduleEntry :=
  new_entry ((normalised table (Class_Name double_class) +:+ " ") +:+ group)
    (DayNumber double_class) (Room_Name double_class) (Day double_class - 1)
    (Time_Code double_class - 1).

Definition group_entry (table : gmap string string) (double_class : RawClass)
    : ScheduleEntry :=
  new_entry (normalised table (Class_Name double_class))
    (DayNumber double_class) (Room_Name double_class) (Day double_class - 1)
    (Time_Code double_class - 1).

(** The entries of the educator among the records of one group. *)
Definition educator_entries (table : gmap string string)
    (fetch : gmap string string → string → list RawClass)
    (educator : string) (cookie : gmap string string) (group : string)
    : list ScheduleEntry :=
  educator_entry table group <$> List.filter (taught_by educator) (fetch cookie group).

Definition set_class_name (name : string) (e : ScheduleEntry) : ScheduleEntry :=
  mkScheduleEntry name (week_code e) (room_number e) (week_day e)
    (slot_number e) (duration e).

(** The texts the pattern [wl=[a-f0-9]+;] matches. *)
Fixpoint all_cookie_chars (s : string) : bool :=
  match s with
  | EmptyString => true
  | String c s' => is_cookie_char c && all_cookie_chars s'
  end.

Definition is_cookie (found : string) : Prop :=
  ∃ run, found = "wl=" +:+ run +:+ ";" ∧ run ≠ "" ∧ all_cookie_chars run = true.
(** * Part III: properties *)

(** ** Rich comparison is a strict total order *)

Lemma string_compare_refl (s : string) : String.compare s s = Eq.
Proof.
  induction s as [|a s IH]; simpl; [done|].
  unfold Ascii.compare. by rewrite N.compare_refl.
Qed.

Lemma string_ltb_leb (s t : string) :
  String.ltb s t = true ↔ String.leb s t = true ∧ s ≠ t.
Proof.
  unfold String.ltb, String.leb.
  destruct (String.compare s t) eqn:E; split; try done.
  - intros [_ Hne]. by apply String.compare_eq_iff in E.
  - intros _. split; [done|]. intros ->.
    by rewrite string_compare_refl in E.
  - by intros [? _].
Qed.

Lemma string_ltb_irrefl (s : string) : String.ltb s s = false.
Proof. unfold String.ltb. by rewrite string_compare_refl. Qed.

Lemma string_ltb_trans (s t u : string) :
  String.ltb s t = true → String.ltb t u = true → String.ltb s u = true.
Proof.
  rewrite !string_ltb_leb. intros [Hst Hne] [Htu Hne'].
  assert (Hsu : String.le s u).
  { trans t; unfold String.le; by apply Is_true_true. }
  split; [by apply Is_true_true|].
  intros ->. apply Hne. by apply String.leb_antisym.
Qed.

Lemma string_ltb_total (s t : string) :
  String.ltb s t = false → String.ltb t s = false → s = t.
Proof.
  unfold String.ltb. rewrite (String.compare_antisym t s).
  destruct (String.compare s t) eqn:E; simpl; try done.
  intros _ _. by apply String.compare_eq_iff.
Qed.

#[global] Instance int_lawful : LawfulComparable Z.
Proof.
  split; simpl.
  - intros x y. apply Z.eqb_eq.
  - intros x. apply Z.ltb_irrefl.
  - intros x y z. rewrite !Z.ltb_lt. lia.
  - intros x y. rewrite !Z.ltb_ge. lia.
Qed.

#[global] Instance str_lawful : LawfulComparable string.
Proof.
  split; simpl.
  - intros x y. apply String.eqb_eq.
  - apply string_ltb_irrefl.
  - apply string_ltb_trans.
  - apply string_ltb_total.
Qed.

Section ComparableFacts.
Context {A : Type} `{LawfulComparable A}.

Lemma py_eq_refl (x : A) : py_eq x x = true.
Proof. by apply py_eq_spec. Qed.

Lemma py_eq_false (x y : A) : py_eq x y = false ↔ x ≠ y.
Proof. rewrite <-py_eq_spec. by destruct (py_eq x y). Qed.

Lemma py_lt_asym (x y : A) : py_lt x y = true → py_lt y x = false.
Proof.
  intros Hxy. destruct (py_lt y x) eqn:Hyx; [|done].
  by rewrite <-(py_lt_irrefl x), (py_lt_trans x y x).
Qed.

Lemma py_lt_neq (x y : A) : py_lt x y = true → x ≠ y.
Proof. intros Hxy ->. by rewrite py_lt_irrefl in Hxy. Qed.

Lemma py_lt_negtrans (x y z : A) :
  py_lt y x = false → py_lt z y = false → py_lt z x = false.
Proof.
  intros Hyx Hzy. destruct (py_lt z x) eqn:Hzx; [|done].
  destruct (py_lt y z) eqn:Hyz.
  - by rewrite (py_lt_trans y z x) in Hyx.
  - rewrite (py_lt_total y z) in Hyx by done. by rewrite Hzx in Hyx.
Qed.

End ComparableFacts.

#[global] Instance tuple_lawful {A B : Type}
  `{LawfulComparable A, LawfulComparable B} : LawfulComparable (A * B).
Proof.
  split.
  - intros [a b] [a' b']. simpl. rewrite andb_true_iff, !py_eq_spec.
    split; [by intros [-> ->] | by intros [= -> ->]].
  - intros [a b]. simpl. by rewrite py_eq_refl, py_lt_irrefl.
  - intros [a b] [a' b'] [a'' b'']. simpl.
    destruct (py_eq a a') eqn:E1.
    + apply py_eq_spec in E1 as ->.
      destruct (py_eq a' a''); [apply py_lt_trans | done].
    + destruct (py_eq a' a'') eqn:E2.
      * apply py_eq_spec in E2 as ->. by rewrite E1.
      * intros Hlt1 Hlt2. pose proof (py_lt_trans _ _ _ Hlt1 Hlt2) as Hlt3.
        pose proof (py_lt_neq _ _ Hlt3) as Hne. apply py_eq_false in Hne.
        by rewrite Hne.
  - intros [a b] [a' b']. simpl.
    destruct (py_eq a a') eqn:E1.
    + apply py_eq_spec in E1 as ->. rewrite py_eq_refl.
      intros ??. f_equal. by apply py_lt_total.
    + assert (py_eq a' a = false) as ->.
      { apply py_eq_false. apply py_eq_false in E1. congruence. }
      intros ??. apply py_eq_false in E1. destruct E1. by apply py_lt_total.
Qed.

(** ** list.sort *)

Section SortFacts.
Context {A : Type} (lt : A → A → bool).
Hypothesis lt_asym : ∀ x y, lt x y = true → lt y x = false.

Lemma insert_sorted_hd (z x : A) (l : list A) :
  lt x z = false → HdRel (λ x y, lt y x = false) z l →
  HdRel (λ x y, lt y x = false) z (insert_sorted lt x l).
Proof.
  intros Hxz Hl. destruct l as [|y l]; simpl; [by constructor|].
  inversion_clear Hl. destruct (lt y x); by constructor.
Qed.

Lemma insert_sorted_ascending (x : A) (l : list A) :
  ascending lt l → ascending lt (insert_sorted lt x l).
Proof.
  induction 1 as [|y l Hl IH Hhd]; simpl.
  - repeat constructor.
  - destruct (lt y x) eqn:Hyx.
    + constructor; [done|]. apply insert_sorted_hd; auto.
    + constructor; [by constructor|]. by constructor.
Qed.

Lemma list_sort_ascending (l : list A) : ascending lt (list_sort lt l).
Proof.
  induction l as [|x l IH]; simpl; [constructor|].
  by apply insert_sorted_ascending.
Qed.

Lemma list_sort_fixed (l : list A) : ascending lt l → list_sort lt l = l.
Proof.
  induction 1 as [|x l Hl IH Hhd]; simpl; [done|].
  rewrite IH. destruct Hhd as [|y l' Hyx]; simpl; [done|]. by rewrite Hyx.
Qed.

Lemma list_sort_idemp (l : list A) :
  list_sort lt (list_sort lt l) = list_sort lt l.
Proof. apply list_sort_fixed, list_sort_ascending. Qed.

Lemma insert_sorted_perm (x : A) (l : list A) :
  insert_sorted lt x l ≡ₚ x :: l.
Proof.
  induction l as [|y l IH]; simpl; [done|].
  destruct (lt y x); [|done]. by rewrite IH, Permutation_swap.
Qed.

Lemma list_sort_perm (l : list A) : list_sort lt l ≡ₚ l.
Proof.
  induction l as [|x l IH]; simpl; [done|].
  by rewrite insert_sorted_perm, IH.
Qed.

Lemma list_sort_length (l : list A) : length (list_sort lt l) = length l.
Proof. by rewrite list_sort_perm. Qed.

End SortFacts.

(** ** The order of ScheduleEntry *)

Lemma str_lexicographic_ltb (s t : string) :
  String.ltb s t = true ↔ str_lexicographic s t.
Proof.
  unfold String.ltb, str_lexicographic. by destruct (String.compare s t).
Qed.

Lemma entry_lt_lexicographic (a b : ScheduleEntry) :
  entry_lt a b = true ↔ lexicographic_spec a b.
Proof.
  unfold entry_lt, lexicographic_spec, entry_key. simpl.
  rewrite <-!str_lexicographic_ltb.
  destruct (Z.eqb_spec (week_code a) (week_code b)) as [->|?];
    [|rewrite Z.ltb_lt; lia].
  destruct (Z.eqb_spec (week_day a) (week_day b)) as [->|?];
    [|rewrite Z.ltb_lt; lia].
  destruct (Z.eqb_spec (slot_number a) (slot_number b)) as [->|?];
    [|rewrite Z.ltb_lt; lia].
  destruct (String.eqb_spec (room_number a) (room_number b)) as [->|Hne].
  - rewrite string_ltb_irrefl. intuition (try lia; try done).
  - intuition (try lia; try done).
Qed.

Lemma entry_eq_same_five_fields (a b : ScheduleEntry) :
  entry_eq a b = true ↔ same_five_fields a b.
Proof.
  unfold entry_eq, same_five_fields. rewrite py_eq_spec. unfold entry_key.
  split; [by intros [= -> -> -> -> ->] | by intros (-> & -> & -> & -> & ->)].
Qed.

Lemma entry_lt_asym (a b : ScheduleEntry) :
  entry_lt a b = true → entry_lt b a = false.
Proof. apply py_lt_asym. Qed.

(** C7. [__lt__] is the lexicographic order on the tuple [(week_code,
    week_day, slot_number, room_number, class_name)]; it is irreflexive and
    transitive, never holds in both directions, and two entries unrelated
    by it are [==]; [__eq__] compares the same five fields, so changing
    [duration] yields an entry that is [==] and neither smaller nor larger;
    sorting a sorted list leaves it unchanged. *)
Theorem entry_order_strict_total :
  (∀ a b, entry_lt a b = true ↔ lexicographic_spec a b) ∧
  (∀ a b, entry_eq a b = true ↔ same_five_fields a b) ∧
  (∀ a, entry_lt a a = false) ∧
  (∀ a b c, entry_lt a b = true → entry_lt b c = true → entry_lt a c = true) ∧
  (∀ a b, entry_lt a b = true → entry_lt b a = false) ∧
  (∀ a b, entry_lt a b = false → entry_lt b a = false → entry_eq a b = true) ∧
  (∀ a d, entry_eq a (set_duration d a) = true ∧
          entry_lt a (set_duration d a) = false ∧
          entry_lt (set_duration d a) a = false) ∧
  (∀ l, list_sort entry_lt (list_sort entry_lt l) = list_sort entry_lt l).
Proof.
  split_and!.
  - apply entry_lt_lexicographic.
  - apply entry_eq_same_five_fields.
  - intros a. apply py_lt_irrefl.
  - intros a b c. apply py_lt_trans.
  - apply entry_lt_asym.
  - intros a b Hab Hba. unfold entry_eq. apply py_eq_spec.
    by apply py_lt_total.
  - intros a d. unfold entry_eq, entry_lt.
    replace (entry_key (set_duration d a)) with (entry_key a) by done.
    by rewrite py_eq_refl, py_lt_irrefl.
  - apply list_sort_idemp, entry_lt_asym.
Qed.

(** ** Subscripts inside the list *)

Section SubscriptFacts.
Context {A : Type}.
Implicit Types (l pre : list A) (x y : A).

Lemma norm_index_in_range l (k : nat) :
  (k < length l)%nat → norm_index l (Z.of_nat k) = Some k.
Proof.
  intros Hk. unfold norm_index.
  destruct (Z.ltb_spec (Z.of_nat k) 0) as [?|_]; [lia|].
  destruct (Z.leb_spec 0 (Z.of_nat k)) as [_|?]; [|lia].
  destruct (Z.ltb_spec (Z.of_nat k) (Z.of_nat (length l))) as [_|?]; [|lia].
  simpl. by rewrite Nat2Z.id.
Qed.

Lemma norm_index_past_end l (k : nat) :
  (length l ≤ k)%nat → norm_index l (Z.of_nat k) = None.
Proof.
  intros Hk. unfold norm_index.
  destruct (Z.ltb_spec (Z.of_nat k) 0) as [?|_]; [lia|].
  destruct (Z.ltb_spec (Z.of_nat k) (Z.of_nat (length l))) as [?|_]; [lia|].
  by rewrite andb_false_r.
Qed.

Lemma getitem_middle pre x l :
  getitem (pre ++ x :: l) (Z.of_nat (length pre)) = Ok x.
Proof.
  unfold getitem. rewrite norm_index_in_range.
  - by rewrite list_lookup_middle.
  - rewrite length_app. simpl. lia.
Qed.

Lemma getitem_middle_next pre x y l :
  getitem (pre ++ x :: y :: l) (Z.of_nat (length pre) + 1) = Ok y.
Proof.
  replace (pre ++ x :: y :: l) with ((pre ++ [x]) ++ y :: l)
    by (by rewrite <-app_assoc).
  replace (Z.of_nat (length pre) + 1) with (Z.of_nat (length (pre ++ [x])))
    by (rewrite length_app; simpl; lia).
  apply getitem_middle.
Qed.

Lemma setattr_item_middle (f : A → A) pre x l :
  setattr_item f (pre ++ x :: l) (Z.of_nat (length pre)) = Ok (pre ++ f x :: l).
Proof.
  unfold setattr_item. rewrite norm_index_in_range.
  - f_equal. rewrite alter_app_r_alt by lia. by rewrite Nat.sub_diag.
  - rewrite length_app. simpl. lia.
Qed.

Lemma delitem_middle_next pre x y l :
  delitem (pre ++ x :: y :: l) (Z.of_nat (length pre) + 1) = Ok (pre ++ x :: l).
Proof.
  replace (Z.of_nat (length pre) + 1) with (Z.of_nat (S (length pre))) by lia.
  unfold delitem. rewrite norm_index_in_range.
  - f_equal. induction pre as [|z pre IH]; simpl; [done|]. by f_equal.
  - rewrite length_app. simpl. lia.
Qed.

Lemma getitem_past_end l (k : nat) :
  (length l ≤ k)%nat → getitem l (Z.of_nat k) = Raise IndexError.
Proof. intros Hk. unfold getitem. by rewrite norm_index_past_end. Qed.

End SubscriptFacts.

(** ** What the merge loop computes *)

Lemma merge_loop_run (rest pre : list ScheduleEntry) (x y : ScheduleEntry)
    (fuel : nat) :
  (length rest < fuel)%nat →
  merge_loop fuel
    (mkMergeState (pre ++ x :: y :: rest) (Z.of_nat (length pre))
       (Z.of_nat (length (pre ++ x :: y :: rest))))
  = Some (Ok (pre ++ merge_run x (y :: rest))).
Proof.
  revert pre x y fuel.
  induction rest as [|z rest IH]; intros pre x y fuel Hfuel;
    (destruct fuel as [|fuel]; [simpl in Hfuel; lia|]);
    cbn [merge_loop merge_body]; rewrite getitem_middle;
    cbn [mbind result_bind]; rewrite getitem_middle_next;
    cbn [mbind result_bind merge_run]; destruct (is_aligned_class x y);
    rewrite ?setattr_item_middle; cbn [mbind result_bind mret result_ret];
    rewrite ?delitem_middle_next; cbn [mbind result_bind mret result_ret].
  - replace (_ <? _) with false; [done|].
    symmetry. apply Z.ltb_ge. rewrite length_app. simpl. lia.
  - replace (_ <? _) with false; [by simpl|].
    symmetry. apply Z.ltb_ge. rewrite length_app. simpl. lia.
  - replace (_ <? _) with true
      by (symmetry; apply Z.ltb_lt; rewrite length_app; simpl; lia).
    replace (Z.of_nat (length pre) - 1 + 1) with (Z.of_nat (length pre)) by lia.
    replace (Z.of_nat (length (pre ++ x :: y :: z :: rest)) - 1)
      with (Z.of_nat (length (pre ++ incr_duration x :: z :: rest)))
      by (rewrite !length_app; simpl; lia).
    apply IH. simpl in Hfuel. lia.
  - replace (_ <? _) with true
      by (symmetry; apply Z.ltb_lt; rewrite length_app; simpl; lia).
    replace (pre ++ x :: y :: z :: rest) with ((pre ++ [x]) ++ y :: z :: rest)
      by (by rewrite <-app_assoc).
    replace (Z.of_nat (length pre) + 1) with (Z.of_nat (length (pre ++ [x])))
      by (rewrite length_app; simpl; lia).
    rewrite IH by (simpl in Hfuel; lia). by rewrite <-app_assoc.
Qed.

(** With fewer than two entries the first pass already reads past the end
    of the list. *)
Lemma merge_list_of_classes_short (l : list ScheduleEntry) :
  (length l < 2)%nat → merge_list_of_classes l = Some (Raise IndexError).
Proof.
  destruct l as [|x [|y l]]; simpl; [done|done|lia].
Qed.

(** With two entries or more the loop returns, and its result is
    [merge_sorted] of the sorted list. *)
Lemma merge_list_of_classes_long (l : list ScheduleEntry) :
  (2 ≤ length l)%nat →
  merge_list_of_classes l = Some (Ok (merge_sorted (list_sort entry_lt l))).
Proof.
  intros Hlen. unfold merge_list_of_classes, merge_list_of_classes_fuel.
  pose proof (list_sort_length entry_lt l) as Hsl.
  destruct (list_sort entry_lt l) as [|x [|y rest]] eqn:Hs;
    simpl in Hsl; [lia|lia|].
  apply (merge_loop_run rest [] x y). lia.
Qed.

(** The loop always finishes within the fuel [merge_list_of_classes]
    gives it. *)
Lemma merge_list_of_classes_total (l : list ScheduleEntry) :
  ∃ r, merge_list_of_classes l = Some r.
Proof.
  destruct (decide (length l < 2)%nat).
  - eexists. by apply merge_list_of_classes_short.
  - eexists. apply merge_list_of_classes_long. lia.
Qed.

Lemma merge_list_of_classes_fuel_enough (fuel : nat) (l : list ScheduleEntry) :
  (0 < fuel)%nat → (length l ≤ fuel)%nat →
  merge_list_of_classes_fuel fuel l = merge_list_of_classes l.
Proof.
  intros Hpos Hfuel. unfold merge_list_of_classes, merge_list_of_classes_fuel.
  pose proof (list_sort_length entry_lt l) as Hsl.
  destruct (list_sort entry_lt l) as [|x [|y rest]] eqn:Hs; simpl in Hsl.
  - destruct fuel; [lia|done].
  - destruct fuel; [lia|done].
  - trans (Some (Ok (merge_run x (y :: rest)))).
    + apply (merge_loop_run rest [] x y fuel). lia.
    + symmetry. apply (merge_loop_run rest [] x y (S (length l))). lia.
Qed.

(** ** The merged list *)

Lemma is_aligned_class_incr_duration (x y : ScheduleEntry) :
  is_aligned_class (incr_duration x) y = is_aligned_class x y.
Proof. done. Qed.

Lemma set_duration_same (x : ScheduleEntry) : set_duration (duration x) x = x.
Proof. by destruct x. Qed.

Lemma merge_run_head (rest : list ScheduleEntry) (x : ScheduleEntry) :
  ∃ d rest', merge_run x rest = set_duration d x :: rest'.
Proof.
  revert x. induction rest as [|y rest IH]; intros x; simpl.
  - exists (duration x), []. by rewrite set_duration_same.
  - destruct (is_aligned_class x y).
    + destruct (IH (incr_duration x)) as (d & rest' & ->). by exists d, rest'.
    + exists (duration x), (merge_run y rest). by rewrite set_duration_same.
Qed.

Lemma merge_run_unaligned (rest : list ScheduleEntry) (x : ScheduleEntry) :
  unaligned (merge_run x rest).
Proof.
  revert x. induction rest as [|y rest IH]; intros x; simpl.
  - by repeat constructor.
  - destruct (is_aligned_class x y) eqn:Hxy; [apply IH|].
    constructor; [apply IH|].
    destruct (merge_run_head rest y) as (d & rest' & ->). by constructor.
Qed.

Lemma merge_run_fixed (rest : list ScheduleEntry) (x : ScheduleEntry) :
  unaligned (x :: rest) → merge_run x rest = x :: rest.
Proof.
  revert x. induction rest as [|y rest IH]; intros x Hun; simpl; [done|].
  inversion_clear Hun as [|?? Hrest Hhd]. inversion_clear Hhd as [|?? Hxy].
  rewrite Hxy. f_equal. by apply IH.
Qed.

Lemma merge_run_ascending (rest : list ScheduleEntry) (x : ScheduleEntry) :
  ascending entry_lt (x :: rest) → ascending entry_lt (merge_run x rest).
Proof.
  revert x. induction rest as [|y rest IH]; intros x Hasc; simpl; [done|].
  inversion_clear Hasc as [|?? Hrest Hhd]. inversion_clear Hhd as [|?? Hyx].
  destruct (is_aligned_class x y).
  - apply IH. inversion_clear Hrest as [|?? Hrest' Hhd'].
    constructor; [done|].
    destruct Hhd' as [|z rest' Hzy]; constructor.
    change (entry_lt z x = false). by apply (py_lt_negtrans _ (entry_key y)).
  - constructor; [by apply IH|].
    destruct (merge_run_head rest y) as (d & rest' & ->). by constructor.
Qed.

Lemma merge_sorted_ascending (l : list ScheduleEntry) :
  ascending entry_lt l → ascending entry_lt (merge_sorted l).
Proof. destruct l; [done|]. apply merge_run_ascending. Qed.

Lemma merge_sorted_unaligned (l : list ScheduleEntry) :
  unaligned (merge_sorted l).
Proof. destruct l; [constructor|]. apply merge_run_unaligned. Qed.

Lemma merge_sorted_fixed (l : list ScheduleEntry) :
  unaligned l → merge_sorted l = l.
Proof. destruct l; [done|]. apply merge_run_fixed. Qed.

(** Whatever [merge_list_of_classes] returns is sorted and has no two
    neighbours that are aligned. *)
Lemma merge_list_of_classes_output (l l' : list ScheduleEntry) :
  merge_list_of_classes l = Some (Ok l') →
  ascending entry_lt l' ∧ unaligned l'.
Proof.
  intros Hm. destruct (decide (length l < 2)%nat) as [Hlen|Hlen].
  - by rewrite merge_list_of_classes_short in Hm.
  - rewrite merge_list_of_classes_long in Hm by lia.
    injection Hm as <-. split.
    + apply merge_sorted_ascending, list_sort_ascending, entry_lt_asym.
    + apply merge_sorted_unaligned.
Qed.

(** A returned list of two entries or more is returned unchanged by a
    second call. *)
Lemma merge_list_of_classes_again (l l' : list ScheduleEntry) :
  merge_list_of_classes l = Some (Ok l') → (2 ≤ length l')%nat →
  merge_list_of_classes l' = Some (Ok l').
Proof.
  intros Hm Hlen. apply merge_list_of_classes_output in Hm as [Hasc Hun].
  rewrite merge_list_of_classes_long by done.
  rewrite (list_sort_fixed entry_lt)
    by (done || apply entry_lt_asym).
  by rewrite merge_sorted_fixed.
Qed.

(** Merging fresh entries, each of duration 1, keeps the number of slots:
    the durations of the result add up to the number of entries. *)
Lemma merge_run_total_duration (rest : list ScheduleEntry) (x : ScheduleEntry) :
  Forall (λ e, duration e = 1) rest →
  total_duration (merge_run x rest) = duration x + Z.of_nat (length rest).
Proof.
  intros Hrest. revert x.
  induction Hrest as [|y rest Hy _ IH]; intros x; [simpl; lia|].
  cbn [merge_run]. destruct (is_aligned_class x y).
  - rewrite IH. simpl. lia.
  - cbn [total_duration foldr]. fold (total_duration (merge_run y rest)).
    rewrite IH, Hy. simpl length. lia.
Qed.

(** ** Entries of one class, room and day *)

Section SameClass.
Variables (name room : string) (code day : Z).

Lemma slot_entry_lt (s t : Z) :
  entry_lt (slot_entry name room code day s) (slot_entry name room code day t)
  = (s <? t).
Proof.
  unfold entry_lt, entry_key. simpl. rewrite !Z.eqb_refl.
  destruct (Z.eqb_spec s t) as [->|?]; [|done].
  by rewrite String.eqb_refl, string_ltb_irrefl, Z.ltb_irrefl.
Qed.

Lemma slot_entry_aligned (s t : Z) :
  is_aligned_class (slot_entry name room code day s)
    (slot_entry name room code day t)
  = (Z.abs (s - t) =? 1).
Proof.
  unfold is_aligned_class. simpl. by rewrite !String.eqb_refl, !Z.eqb_refl.
Qed.

Lemma slot_entry_ascending (s t u : Z) :
  s ≤ t → t ≤ u →
  list_sort entry_lt
    [slot_entry name room code day s; slot_entry name room code day t;
     slot_entry name room code day u]
  = [slot_entry name room code day s; slot_entry name room code day t;
     slot_entry name room code day u].
Proof.
  intros Hst Htu. apply list_sort_fixed.
  repeat constructor; rewrite slot_entry_lt; by apply Z.ltb_ge.
Qed.

End SameClass.

(** ** The merger on short inputs *)

(** C2. On the empty list [merge_list_of_classes] does not return a list:
    the first pass of the loop raises [IndexError]. *)
Theorem merge_list_of_classes_empty :
  merge_body (mkMergeState [] 0 0) = Raise IndexError ∧
  merge_list_of_classes [] = Some (Raise IndexError) ∧
  (∀ fuel, merge_list_of_classes_fuel (S fuel) [] = Some (Raise IndexError)).
Proof. by split_and!. Qed.

(** C10. On every one-element list the body of the loop runs before the
    loop condition is tested: [class_list[0]] is read, [class_list[1]] does
    not exist, and [merge_list_of_classes] raises [IndexError]. *)
Theorem merge_list_of_classes_singleton (e : ScheduleEntry) :
  getitem [e] 0 = Ok e ∧
  getitem [e] (0 + 1) = Raise IndexError ∧
  merge_body (mkMergeState [e] 0 1) = Raise IndexError ∧
  merge_list_of_classes [e] = Some (Raise IndexError) ∧
  (∀ fuel, merge_list_of_classes_fuel (S fuel) [e] = Some (Raise IndexError)).
Proof. by split_and!. Qed.

(** C1, on three consecutive slots.  Three entries of one class, week
    code, day and room in the slots 0, 1 and 2 do not come out as one entry
    of duration 3 but as two: slot 0 with duration 2, and slot 2 with
    duration 1.  After
    the first merge the entry at the cursor still has [slot_number] 0, so
    [is_aligned_class] finds it two slots away from the entry of slot 2. *)
Theorem merge_three_consecutive_slots (name room : string) (code day : Z) :
  merge_list_of_classes
    [slot_entry name room code day 0; slot_entry name room code day 1;
     slot_entry name room code day 2]
  = Some (Ok [set_duration 2 (slot_entry name room code day 0);
              slot_entry name room code day 2]).
Proof.
  rewrite merge_list_of_classes_long by (simpl; lia).
  rewrite slot_entry_ascending by lia.
  cbn [merge_sorted merge_run].
  rewrite slot_entry_aligned. change (Z.abs (0 - 1) =? 1) with true. cbv iota.
  rewrite is_aligned_class_incr_duration, slot_entry_aligned.
  by change (Z.abs (0 - 2) =? 1) with false.
Qed.

(** C8, on a run of two.  Two aligned entries merge into a one-element
    list, and merging that list again raises [IndexError] instead of
    returning it unchanged. *)
Theorem merge_twice_two_slots (name room : string) (code day : Z) :
  merge_list_of_classes
    [slot_entry name room code day 0; slot_entry name room code day 1]
  = Some (Ok [set_duration 2 (slot_entry name room code day 0)]) ∧
  merge_list_of_classes [set_duration 2 (slot_entry name room code day 0)]
  = Some (Raise IndexError).
Proof.
  split; [|done].
  rewrite merge_list_of_classes_long by (simpl; lia).
  rewrite list_sort_fixed
    by (repeat constructor; by rewrite slot_entry_lt).
  cbn [merge_sorted merge_run].
  rewrite slot_entry_aligned. by change (Z.abs (0 - 1) =? 1) with true.
Qed.

(** ** Python str operations *)

Lemma str_append_empty_r (s : string) : s +:+ "" = s.
Proof.
  induction s as [|c s IH]; [done|].
  change (String c (s +:+ "") = String c s). by rewrite IH.
Qed.

Lemma str_prefix_cons (a b : ascii) (s t : string) :
  String.prefix (String a s) (String b t)
  = if ascii_dec a b then String.prefix s t else false.
Proof. done. Qed.

Lemma str_prefix_refl (s : string) : String.prefix s s = true.
Proof.
  induction s as [|c s IH]; [done|].
  rewrite str_prefix_cons. by destruct (ascii_dec c c).
Qed.

Lemma str_prefix_append (s t : string) : String.prefix s (s +:+ t) = true.
Proof.
  induction s as [|c s IH]; [by destruct t|].
  change (String c s +:+ t) with (String c (s +:+ t)).
  rewrite str_prefix_cons. by destruct (ascii_dec c c).
Qed.

Lemma str_contains_cons (sub : string) (c : ascii) (s : string) :
  str_contains sub (String c s) = false →
  String.prefix sub (String c s) = false ∧ str_contains sub s = false.
Proof. cbn [str_contains]. by intros [? ?]%orb_false_elim. Qed.

Lemma str_contains_middle (sub s t : string) :
  str_contains sub (s +:+ sub +:+ t) = true.
Proof.
  induction s as [|c s IH].
  - change ("" +:+ sub +:+ t) with (sub +:+ t).
    pose proof (str_prefix_append sub t) as Hpre.
    destruct (sub +:+ t); cbn [str_contains]; by rewrite Hpre.
  - change (String c s +:+ sub +:+ t) with (String c (s +:+ sub +:+ t)).
    cbn [str_contains]. rewrite IH. apply orb_true_r.
Qed.

(** A text without the separator is a single piece. *)
Lemma str_split_aux_whole (sep s : string) :
  str_contains sep s = false → str_split_aux sep 0 s = (s, []).
Proof.
  induction s as [|c s IH]; [done|].
  intros [Hpre Hs]%str_contains_cons. cbn [str_split_aux].
  by rewrite Hpre, IH.
Qed.

(** A text with the separator has a second piece. *)
Lemma str_split_aux_second (sep s : string) :
  sep ≠ "" → str_contains sep s = true →
  ∃ piece second pieces, str_split_aux sep 0 s = (piece, second :: pieces).
Proof.
  intros Hsep. induction s as [|c s IH].
  - cbn [str_contains]. by destruct sep.
  - cbn [str_contains str_split_aux].
    destruct (String.prefix sep (String c s)).
    + intros _. destruct (str_split_aux sep (String.length sep - 1) s) as [p ps].
      by eexists _, _, _.
    + intros Hs. destruct (IH Hs) as (p & q & ps & ->). by eexists _, _, _.
Qed.

Lemma str_replace_aux_cons (old new : string) (c : ascii) (s : string) :
  str_replace_aux old new 0 (String c s)
  = if String.prefix old (String c s)
    then new +:+ str_replace_aux old new (String.length old - 1) s
    else String c (str_replace_aux old new 0 s).
Proof. done. Qed.

Lemma str_replace_aux_skip_all (old new : string) (skip : nat) (s : string) :
  (String.length s ≤ skip)%nat → str_replace_aux old new skip s = "".
Proof.
  revert skip. induction s as [|c s IH]; intros skip Hskip; [done|].
  simpl in Hskip. destruct skip as [|skip]; [lia|].
  simpl. apply IH. lia.
Qed.

(** In front of a [" ["] no other [" ["] begins that the text before it
    does not already contain. *)
Lemma bracket_prefix_before (old base rest : string) (c : ascii) :
  String.prefix " [" (String c base) = false →
  String.prefix (" [" +:+ old) (String c (base +:+ " [" +:+ rest)) = false.
Proof.
  change (" [" +:+ old) with (String " " (String "[" old)).
  rewrite !str_prefix_cons. destruct (ascii_dec " " c) as [_|]; [|done].
  destruct base as [|c' base].
  - intros _. change ("" +:+ " [" +:+ rest) with (String " " (String "[" rest)).
    rewrite str_prefix_cons.
    destruct (ascii_dec "[" " ") as [Heq|]; [discriminate Heq|done].
  - change (String c' base +:+ " [" +:+ rest)
      with (String c' (base +:+ " [" +:+ rest)).
    rewrite !str_prefix_cons. destruct (ascii_dec "[" c'); [|done].
    by destruct base.
Qed.

Lemma str_split_bracket (base rest : string) :
  str_contains " [" base = false → str_contains " [" rest = false →
  str_split " [" (base +:+ " [" +:+ rest) = [base; rest].
Proof.
  intros Hbase Hrest. unfold str_split.
  enough (str_split_aux " [" 0 (base +:+ " [" +:+ rest) = (base, [rest]))
    as -> by done.
  induction base as [|c base IH].
  - change ("" +:+ " [" +:+ rest) with (String " " (String "[" rest)).
    cbn [str_split_aux].
    change (String " " (String "[" rest)) with (" [" +:+ rest).
    rewrite str_prefix_append.
    change (String.length " [" - 1)%nat with 1%nat.
    cbn [str_split_aux]. by rewrite str_split_aux_whole.
  - apply str_contains_cons in Hbase as [Hpre Hbase].
    change (String c base +:+ " [" +:+ rest)
      with (String c (base +:+ " [" +:+ rest)).
    cbn [str_split_aux].
    pose proof (bracket_prefix_before "" base rest c Hpre) as Hpre'.
    change (" [" +:+ "") with " [" in Hpre'. by rewrite Hpre', IH.
Qed.

Lemma str_replace_bracket (base rest : string) :
  str_contains " [" base = false →
  str_replace (" [" +:+ rest) "" (base +:+ " [" +:+ rest) = base.
Proof.
  intros Hbase. unfold str_replace. induction base as [|c base IH].
  - change ("" +:+ " [" +:+ rest) with (String " " (String "[" rest)).
    rewrite str_replace_aux_cons.
    change (String " " (String "[" rest)) with (" [" +:+ rest).
    rewrite str_prefix_refl.
    change (String.length (" [" +:+ rest) - 1)%nat
      with (String.length (String "[" rest)).
    by rewrite str_replace_aux_skip_all.
  - apply str_contains_cons in Hbase as [Hpre Hbase].
    change (String c base +:+ " [" +:+ rest)
      with (String c (base +:+ " [" +:+ rest)).
    rewrite str_replace_aux_cons.
    rewrite (bracket_prefix_before rest base rest c Hpre). by rewrite IH.
Qed.

(** ** The name normaliser *)

(** [get_class_name] raises nothing: [split(" [")[1]] is only evaluated
    for a title that contains [" ["]. *)
Lemma get_class_name_total (table : gmap string string) (name : string) :
  ∃ res_name, get_class_name table name = Ok res_name.
Proof.
  unfold get_class_name. destruct (str_contains " [" name) eqn:Hname.
  - destruct (str_split_aux_second " [" name) as (p & q & ps & Hsplit);
      [done..|].
    unfold str_split. rewrite Hsplit.
    pose proof (getitem_middle_next [] p q ps) as Hget.
    change (getitem (p :: q :: ps) 1 = Ok q) in Hget. rewrite Hget.
    cbn [mbind result_bind mret result_ret]. by eexists.
  - cbn [mbind result_bind mret result_ret]. by eexists.
Qed.

(** A title without [" ["] comes back as its alias, and unchanged when the
    table has no entry for it. *)
Lemma get_class_name_plain (table : gmap string string) (name : string) :
  str_contains " [" name = false →
  get_class_name table name = Ok (alias_of table name) ∧
  (table !! name = None → get_class_name table name = Ok name).
Proof.
  intros Hname. unfold get_class_name, alias_of. rewrite Hname.
  cbn [mbind result_bind mret result_ret].
  split; [|intros ->]; destruct (table !! name); cbn [default];
    by rewrite str_append_empty_r.
Qed.

(** A title with exactly one [" ["] comes back as the alias of what is
    before it, followed by the unchanged rest. *)
Lemma get_class_name_one_bracket (table : gmap string string)
    (base rest : string) :
  str_contains " [" base = false → str_contains " [" rest = false →
  get_class_name table (base +:+ " [" +:+ rest)
  = Ok (alias_of table base +:+ " [" +:+ rest).
Proof.
  intros Hbase Hrest. unfold get_class_name, alias_of.
  rewrite str_contains_middle, str_split_bracket by done.
  change (getitem [base; rest] 1) with (Ok rest).
  cbn [mbind result_bind mret result_ret].
  change ("" +:+ " [" +:+ rest) with (" [" +:+ rest).
  rewrite (str_replace_bracket base rest Hbase).
  by destruct (table !! base).
Qed.

(** The example of the specification. *)
Lemma get_class_name_example :
  get_class_name class_names_cast "Микропроцессорные средства и системы [Лаб]"
  = Ok "МПСиС [Лаб]".
Proof. by vm_compute. Qed.

(** C6, on titles with two bracketed parts.  [split(" [")[1]]
    is only the text between the first and the second [" ["], and
    [replace] removes it from the middle of the title: the first bracket
    moves behind the second, and the name looked up in the table still
    carries a bracket, so that no alias is found. *)
Theorem get_class_name_two_brackets :
  get_class_name class_names_cast
    "Микропроцессорные средства и системы [Лаб] [2]"
  = Ok "Микропроцессорные средства и системы [2] [Лаб]" ∧
  str_split " [" "A [B] [C]" = ["A"; "B]"; "C]"] ∧
  str_replace " [B]" "" "A [B] [C]" = "A [C]" ∧
  get_class_name class_names_cast "A [B] [C]" = Ok "A [C] [B]".
Proof. by vm_compute. Qed.

(** ** The first occurrence *)

Lemma weekday_range (t : datetime) : 0 ≤ weekday t < 7.
Proof. unfold weekday. apply Z.mod_pos_bound. lia. Qed.

Lemma toordinal_days (o : Z) : toordinal (days o) = o.
Proof. unfold toordinal, days. by rewrite Z.div_mul. Qed.

Lemma toordinal_add_days (t : datetime) (n : Z) :
  toordinal (t + days n) = toordinal t + n.
Proof. unfold toordinal, days. by rewrite Z.div_add. Qed.

(** C3. The date of the first occurrence is the start of the semester
    moved by [(week_code + 4) * 7] days and [week_day - first_weekday - 1]
    days when [week_day < first_weekday] and [week_code = 0], and by
    [week_code * 7] days and [week_day - first_weekday] days otherwise,
    [first_weekday] being the weekday of the start of the semester with
    Monday as 0 (2024-02-05 was a Monday).  For a semester starting on
    Wednesday 2024-02-07 an entry of Monday in week code 0 first occurs
    [(0 + 4) * 7 + (0 - 2 - 1)] days later, on 2024-03-03. *)
Theorem first_class_date_spec :
  (∀ start_date entry,
     first_class_date start_date entry
     = first_occurrence_spec start_date (weekday start_date) entry) ∧
  (∀ start_date, 0 ≤ weekday start_date < 7) ∧
  weekday (datetime_of_date 2024 2 5) = 0 ∧
  weekday (datetime_of_date 2024 2 7) = 2 ∧
  (∀ name room slot,
     first_class_date (datetime_of_date 2024 2 7) (new_entry name 0 room 0 slot)
     = datetime_of_date 2024 2 7 + days ((0 + 4) * 7) + days (0 - 2 - 1) ∧
     first_class_date (datetime_of_date 2024 2 7) (new_entry name 0 room 0 slot)
     = datetime_of_date 2024 3 3).
Proof.
  split_and!; try done.
  - intros start_date entry. unfold first_class_date, first_occurrence_spec.
    unfold first_day_of_semester, days.
    destruct (_ && _); lia.
  - apply weekday_range.
Qed.

(** ** Start and end of an event *)

Lemma clock_reading (o h m : Z) :
  0 ≤ h < 24 → 0 ≤ m < 60 →
  toordinal (days o + hours h + minutes m) = o ∧
  hour (days o + hours h + minutes m) = h ∧
  minute (days o + hours h + minutes m) = m.
Proof.
  intros Hh Hm. unfold toordinal, hour, minute, days, hours, minutes.
  replace (o * 1440 + h * 60 + m) with (o * 1440 + (h * 60 + m)) by lia.
  split_and!.
  - rewrite Z.div_add_l, Z.div_small; lia.
  - rewrite Z.add_comm, Z.mod_add, Z.mod_small by lia.
    rewrite Z.add_comm, Z.div_add, Z.div_small; lia.
  - replace (o * 1440 + (h * 60 + m)) with (m + (o * 24 + h) * 60) by lia.
    rewrite Z.mod_add, Z.mod_small; lia.
Qed.

(** The first occurrence of a semester that starts at 00:00 is at 00:00. *)
Lemma first_class_date_midnight (o : Z) (entry : ScheduleEntry) :
  ∃ o', first_class_date (days o) entry = days o'.
Proof.
  unfold first_class_date.
  destruct (_ && _); eexists; unfold days; by rewrite <-Z.mul_add_distr_r.
Qed.

(** C4. An event starts 9 hours after the beginning of the date of the
    first occurrence, that is at 09:00, plus [slot_number * (2 *
    academic_hour_duration + 10)] minutes, the 10 being fixed whatever
    [short_recreation_duration] is, plus [long_recreation_duration -
    short_recreation_duration] minutes exactly when [slot_number > 2].  With
    the durations 40, 10 and 40 and slot 3 that is [3 * (80 + 10) + 30]
    minutes after 09:00. *)
Theorem start_time_spec :
  (∀ start_date academic_hour short long repeat_number entry rng,
     dtstart (create_event start_date academic_hour short long repeat_number
                entry rng).1
     = first_class_date start_date entry + hours 9
       + minutes (slot_number entry * (2 * academic_hour + 10))
       + (if slot_number entry >? 2 then minutes (long - short) else 0)) ∧
  (∀ o entry,
     hour (first_class_date (days o) entry + hours 9) = 9 ∧
     minute (first_class_date (days o) entry + hours 9) = 0) ∧
  (∀ start_date repeat_number name code room day rng,
     dtstart (create_event start_date 40 10 40 repeat_number
                (new_entry name code room day 3) rng).1
     = first_class_date start_date (new_entry name code room day 3) + hours 9
       + minutes (3 * (80 + 10) + 30)).
Proof.
  split_and!.
  - intros. simpl. unfold start_time, pair_duration, minutes.
    destruct (_ >? _); lia.
  - intros o entry. destruct (first_class_date_midnight o entry) as [o' ->].
    replace (days o' + hours 9) with (days o' + hours 9 + minutes 0)
      by (unfold minutes; lia).
    split; by apply clock_reading.
  - intros. simpl. unfold start_time, pair_duration, minutes. simpl. lia.
Qed.

(** C5. An event lasts [duration * (2 * academic_hour_duration) +
    (duration - 1) * short_recreation_duration] minutes and ends that long
    after its start.  With an academic hour of 40 minutes and a short break
    of 10, an entry of slot 0 and duration 1 in a semester that starts at
    00:00 of some day runs from 09:00 to 10:20 of one day, 80 minutes. *)
Theorem end_time_spec :
  (∀ start_date academic_hour short long repeat_number entry rng,
     let event := (create_event start_date academic_hour short long
                     repeat_number entry rng).1 in
     class_duration academic_hour short entry
     = duration entry * (2 * academic_hour) + (duration entry - 1) * short ∧
     dtend event
     = dtstart event + minutes (class_duration academic_hour short entry)) ∧
  (∀ o long repeat_number name code room day rng,
     let event := (create_event (days o) 40 10 long repeat_number
                     (new_entry name code room day 0) rng).1 in
     hour (dtstart event) = 9 ∧ minute (dtstart event) = 0 ∧
     hour (dtend event) = 10 ∧ minute (dtend event) = 20 ∧
     dtend event - dtstart event = 80 ∧
     toordinal (dtend event) = toordinal (dtstart event)).
Proof.
  split.
  - intros. simpl. unfold end_time, class_duration, pair_duration. lia.
  - intros. subst event. simpl.
    unfold end_time, start_time, class_duration, pair_duration. simpl.
    destruct (first_class_date_midnight o (new_entry name code room day 0))
      as [o' ->].
    replace (days o' + hours 9 + minutes (0 * (40 * 2 + 10)))
      with (days o' + hours 9 + minutes 0) by done.
    replace (days o' + hours 9 + minutes 0 + minutes (1 * (40 * 2) + (1 - 1) * 10))
      with (days o' + hours 10 + minutes 20) by (unfold hours, minutes; lia).
    destruct (clock_reading o' 9 0) as (-> & -> & ->); [lia..|].
    destruct (clock_reading o' 10 20) as (-> & -> & ->); [lia..|].
    split_and!; try done. unfold hours, minutes. lia.
Qed.

(** ** Two runs of the projection *)

Section Runs.
Variables (start_date : datetime).
Variables (academic_hour short long repeat_number : Z).

Lemma create_ics_file_loop_events (todo : list ScheduleEntry)
    (cal : list Event) (rng : entropy) :
  (create_ics_file_loop start_date academic_hour short long repeat_number
     todo cal rng).1
  = cal ++ events_of start_date academic_hour short long repeat_number todo rng.
Proof.
  revert cal rng. induction todo as [|entry todo IH]; intros cal rng; simpl.
  - by rewrite app_nil_r.
  - by rewrite IH, <-app_assoc.
Qed.

Lemma create_ics_file_cal (schedule : list ScheduleEntry) (rng : entropy) :
  cal (create_ics_file start_date academic_hour short long repeat_number
         schedule rng)
  = events_of start_date academic_hour short long repeat_number schedule rng.
Proof.
  unfold create_ics_file.
  pose proof (create_ics_file_loop_events schedule [] rng) as Hloop.
  by destruct (create_ics_file_loop _ _ _ _ _ schedule [] rng).
Qed.

Lemma create_ics_file_schedule (schedule : list ScheduleEntry) (rng : entropy) :
  schedule_after (create_ics_file start_date academic_hour short long
                    repeat_number schedule rng)
  = schedule.
Proof.
  unfold create_ics_file.
  by destruct (create_ics_file_loop _ _ _ _ _ schedule [] rng).
Qed.

Lemma events_of_set_uid (u : string) (todo : list ScheduleEntry) (rng : entropy) :
  set_uid u <$>
    events_of start_date academic_hour short long repeat_number todo rng
  = (λ entry,
       set_uid u (create_event start_date academic_hour short long
                    repeat_number entry rng).1) <$> todo.
Proof.
  revert rng. induction todo as [|entry todo IH]; intros rng; simpl; [done|].
  f_equal. by rewrite IH.
Qed.

Lemma events_of_uid (todo : list ScheduleEntry) (rng : entropy) :
  uid <$> events_of start_date academic_hour short long repeat_number todo rng
  = rng <$> seq 0 (length todo).
Proof.
  revert rng. induction todo as [|entry todo IH]; intros rng; simpl; [done|].
  f_equal. by rewrite IH, <-fmap_S_seq, <-list_fmap_compose.
Qed.

End Runs.

(** C9, with the [uid] set apart.  Two runs on the same schedule and
    configuration yield one event per entry, and their events agree in
    [summary], [dtstart], [dtend], [location] and [rrule]; the [uid] of the
    [k]-th event is the [k]-th string that [str(uuid4())] yields in that
    run; the schedule is left as it was given. *)
Theorem create_ics_file_reproducible_up_to_uid
    (start_date : datetime) (academic_hour short long repeat_number : Z)
    (schedule : list ScheduleEntry) (rng rng' : entropy) :
  let run := create_ics_file start_date academic_hour short long
               repeat_number schedule rng in
  let run' := create_ics_file start_date academic_hour short long
                repeat_number schedule rng' in
  set_uid "" <$> cal run = set_uid "" <$> cal run' ∧
  length (cal run) = length schedule ∧
  uid <$> cal run = rng <$> seq 0 (length schedule) ∧
  uid <$> cal run' = rng' <$> seq 0 (length schedule) ∧
  schedule_after run = schedule ∧ schedule_after run' = schedule.
Proof.
  intros run run'. subst run run'.
  rewrite !create_ics_file_cal, !create_ics_file_schedule, !events_of_uid.
  rewrite !events_of_set_uid. split_and!; try done.
  rewrite <-(length_fmap uid), events_of_uid. by rewrite length_fmap, length_seq.
Qed.

(** Counterexample to C9 with all fields compared: the same entry under the
    same configuration gets another [uid] when [uuid4] draws another
    value. *)
Lemma create_ics_file_not_reproducible :
  cal (create_ics_file (datetime_of_date 2024 2 5) 40 10 40 5
         [new_entry "МПСиС [Лаб] ПИН-32" 0 "4340" 0 0]
         (λ _, "6fa459ea-ee8a-4ca4-894e-db77e160355e"))
  ≠ cal (create_ics_file (datetime_of_date 2024 2 5) 40 10 40 5
           [new_entry "МПСиС [Лаб] ПИН-32" 0 "4340" 0 0]
           (λ _, "16fd2706-8baf-433b-82eb-8c7fada847da")).
Proof. discriminate. Qed.

(** * Part IV: further properties of the script *)

(** ** The merger *)

Lemma list_sort_elem_of {A : Type} (lt : A → A → bool) (l : list A) (x : A) :
  x ∈ list_sort lt l ↔ x ∈ l.
Proof. by rewrite list_sort_perm. Qed.

Lemma Sorted_pairwise {A : Type} (R : A → A → Prop) (l : list A) :
  (∀ x y, x ∈ l → y ∈ l → R x y) → Sorted R l.
Proof.
  induction l as [|x l IH]; intros HR; constructor.
  - apply IH. intros y z Hy Hz. apply HR; by constructor.
  - destruct l as [|y l]; constructor. apply HR; repeat constructor.
Qed.

Lemma merge_run_length (rest : list ScheduleEntry) (x : ScheduleEntry) :
  (1 ≤ length (merge_run x rest) ≤ S (length rest))%nat.
Proof.
  revert x. induction rest as [|y rest IH]; intros x; simpl; [lia|].
  destruct (is_aligned_class x y); simpl.
  - specialize (IH (incr_duration x)). lia.
  - specialize (IH y). lia.
Qed.

Lemma merge_run_grown (rest : list ScheduleEntry) (x x0 : ScheduleEntry) :
  x = set_duration (duration x) x0 → duration x0 ≤ duration x →
  Forall (grown_from (x0 :: rest)) (merge_run x rest).
Proof.
  revert x x0. induction rest as [|y rest IH]; intros x x0 Hx Hd; simpl.
  - repeat constructor. exists x0. split_and!; [by left|done..].
  - destruct (is_aligned_class x y).
    + eapply Forall_impl.
      * apply (IH (incr_duration x) x0); [by rewrite Hx|simpl; lia].
      * intros e' (e & He & Hee). exists e. split; [|done].
        apply elem_of_cons in He as [->|He]; [by left|by do 2 right].
    + constructor.
      * exists x0. split_and!; [by left|done..].
      * eapply Forall_impl.
        -- apply (IH y y); [by rewrite set_duration_same|lia].
        -- intros e' (e & He & Hee). exists e. split; [by right|done].
Qed.

(** X1. [merge_list_of_classes] raises [IndexError] exactly on the lists
    of fewer than two entries, and returns a list exactly on the others. *)
Theorem merge_raises_iff_short (l : list ScheduleEntry) :
  (merge_list_of_classes l = Some (Raise IndexError) ↔ (length l < 2)%nat) ∧
  ((∃ l', merge_list_of_classes l = Some (Ok l')) ↔ (2 ≤ length l)%nat).
Proof.
  destruct (decide (length l < 2)%nat) as [Hlen|Hlen].
  - rewrite merge_list_of_classes_short by done. split; [done|].
    split; [by intros [? ?]|lia].
  - rewrite merge_list_of_classes_long by lia. split; [split; [done|lia]|].
    split; [lia|]. intros _. by eexists.
Qed.

(** X2. The [while] loop ends: with as many passes allowed as the list
    has entries, and at least one, [merge_list_of_classes] has its outcome,
    and allowing more passes does not change it. *)
Theorem merge_loop_terminates (l : list ScheduleEntry) (fuel : nat) :
  (0 < fuel)%nat → (length l ≤ fuel)%nat →
  ∃ r, merge_list_of_classes_fuel fuel l = Some r ∧
       merge_list_of_classes_fuel (S fuel) l = Some r ∧
       merge_list_of_classes l = Some r.
Proof.
  intros Hpos Hfuel. destruct (merge_list_of_classes_total l) as [r Hr].
  exists r. by rewrite !merge_list_of_classes_fuel_enough by lia.
Qed.

Lemma merge_loop_terminates_witness :
  ∃ r, merge_list_of_classes_fuel 2
         [new_entry "A" 0 "R" 0 1; new_entry "A" 0 "R" 0 0] = Some r ∧
       merge_list_of_classes_fuel 3
         [new_entry "A" 0 "R" 0 1; new_entry "A" 0 "R" 0 0] = Some r ∧
       merge_list_of_classes
         [new_entry "A" 0 "R" 0 1; new_entry "A" 0 "R" 0 0] = Some r.
Proof.
  apply (merge_loop_terminates
           [new_entry "A" 0 "R" 0 1; new_entry "A" 0 "R" 0 0] 2);
    simpl; lia.
Defined.

(** X3. A list returned by [merge_list_of_classes] is in the order of
    [__lt__], and no entry of it is aligned with the entry after it. *)
Theorem merge_output_sorted_unaligned (l l' : list ScheduleEntry) :
  merge_list_of_classes l = Some (Ok l') →
  ascending entry_lt l' ∧ unaligned l'.
Proof. apply merge_list_of_classes_output. Qed.

Lemma merge_output_sorted_unaligned_witness :
  ascending entry_lt
    [new_entry "A" 0 "R" 0 0; new_entry "B" 0 "R" 0 1] ∧
  unaligned [new_entry "A" 0 "R" 0 0; new_entry "B" 0 "R" 0 1].
Proof.
  apply (merge_output_sorted_unaligned
           [new_entry "B" 0 "R" 0 1; new_entry "A" 0 "R" 0 0]).
  reflexivity.
Defined.

(** X4. Merging is idempotent on the lists it returns with two entries or
    more: a second call returns such a list unchanged. *)
Theorem merge_idempotent_from_two (l l' : list ScheduleEntry) :
  merge_list_of_classes l = Some (Ok l') → (2 ≤ length l')%nat →
  merge_list_of_classes l' = Some (Ok l').
Proof. apply merge_list_of_classes_again. Qed.

Lemma merge_idempotent_from_two_witness :
  merge_list_of_classes
    [set_duration 2 (new_entry "A" 0 "R" 0 0); new_entry "B" 0 "R" 0 2]
  = Some (Ok [set_duration 2 (new_entry "A" 0 "R" 0 0);
              new_entry "B" 0 "R" 0 2]).
Proof.
  apply (merge_idempotent_from_two
           [new_entry "B" 0 "R" 0 2; new_entry "A" 0 "R" 0 1;
            new_entry "A" 0 "R" 0 0]);
    [reflexivity | simpl; lia].
Defined.

Lemma merge_list_of_classes_grown (l l' : list ScheduleEntry) :
  merge_list_of_classes l = Some (Ok l') →
  (1 ≤ length l' ≤ length l)%nat ∧ Forall (grown_from l) l'.
Proof.
  intros Hm. destruct (decide (length l < 2)%nat) as [Hlen|Hlen].
  { by rewrite merge_list_of_classes_short in Hm. }
  rewrite merge_list_of_classes_long in Hm by lia. injection Hm as <-.
  pose proof (list_sort_length entry_lt l) as Hsl.
  pose proof (list_sort_elem_of entry_lt l) as Hin.
  destruct (list_sort entry_lt l) as [|x rest]; simpl in *; [lia|].
  split.
  - pose proof (merge_run_length rest x). lia.
  - eapply Forall_impl.
    + apply (merge_run_grown rest x x); [by rewrite set_duration_same|lia].
    + intros e' (e & He & Hee). exists e. split; [by apply Hin|done].
Qed.

(** X5. A returned list is not empty and not longer than the input, and
    each of its entries is an entry of the input whose [duration] has not
    shrunk: merging invents no entry and changes no field but
    [duration]. *)
Theorem merge_output_from_input (l l' : list ScheduleEntry) :
  merge_list_of_classes l = Some (Ok l') →
  (1 ≤ length l' ≤ length l)%nat ∧ Forall (grown_from l) l'.
Proof. apply merge_list_of_classes_grown. Qed.

Lemma merge_output_from_input_witness :
  (1 ≤ length [set_duration 2 (new_entry "A" 0 "R" 0 0)] ≤ 2)%nat ∧
  Forall (grown_from [new_entry "A" 0 "R" 0 1; new_entry "A" 0 "R" 0 0])
    [set_duration 2 (new_entry "A" 0 "R" 0 0)].
Proof.
  apply (merge_output_from_input
           [new_entry "A" 0 "R" 0 1; new_entry "A" 0 "R" 0 0]).
  reflexivity.
Defined.

(** X6. Merging fresh entries loses no slot: the durations of the returned
    entries add up to the number of entries given. *)
Theorem merge_keeps_slot_count (l l' : list ScheduleEntry) :
  fresh l → merge_list_of_classes l = Some (Ok l') →
  total_duration l' = Z.of_nat (length l).
Proof.
  intros Hfresh Hm. destruct (decide (length l < 2)%nat) as [Hlen|Hlen].
  { by rewrite merge_list_of_classes_short in Hm. }
  rewrite merge_list_of_classes_long in Hm by lia. injection Hm as <-.
  pose proof (list_sort_length entry_lt l) as Hsl.
  assert (Hfs : fresh (list_sort entry_lt l)).
  { unfold fresh. by rewrite list_sort_perm. }
  destruct (list_sort entry_lt l) as [|x rest]; simpl in *; [lia|].
  inversion_clear Hfs as [|?? Hx Hrest].
  rewrite merge_run_total_duration by done. lia.
Qed.

Lemma merge_keeps_slot_count_witness :
  total_duration
    [set_duration 2 (new_entry "A" 0 "R" 0 0); new_entry "A" 0 "R" 0 2] = 3.
Proof.
  apply (merge_keeps_slot_count
           [new_entry "A" 0 "R" 0 2; new_entry "A" 0 "R" 0 1;
            new_entry "A" 0 "R" 0 0]);
    [by repeat constructor | reflexivity].
Defined.

(** X7. Merging is selective: when no two entries of a list of two or more
    are aligned, the list is returned sorted, every entry as it was. *)
Theorem merge_leaves_unaligned_entries (l : list ScheduleEntry) :
  (2 ≤ length l)%nat →
  (∀ x y, x ∈ l → y ∈ l → is_aligned_class x y = false) →
  merge_list_of_classes l = Some (Ok (list_sort entry_lt l)).
Proof.
  intros Hlen Hun. rewrite merge_list_of_classes_long by done.
  rewrite merge_sorted_fixed; [done|].
  apply Sorted_pairwise. intros x y Hx Hy.
  apply Hun; by apply list_sort_elem_of in Hx, Hy.
Qed.

Lemma merge_leaves_unaligned_entries_witness :
  merge_list_of_classes
    [new_entry "МПСиС [Лек]" 0 "R" 0 1; new_entry "МПСиС [Лаб]" 0 "R" 0 0]
  = Some (Ok (list_sort entry_lt
                [new_entry "МПСиС [Лек]" 0 "R" 0 1;
                 new_entry "МПСиС [Лаб]" 0 "R" 0 0])).
Proof.
  apply (merge_leaves_unaligned_entries
           [new_entry "МПСиС [Лек]" 0 "R" 0 1;
            new_entry "МПСиС [Лаб]" 0 "R" 0 0]);
    [simpl; lia|].
  intros x y Hx Hy.
  repeat (apply elem_of_cons in Hx as [->|Hx]);
    repeat (apply elem_of_cons in Hy as [->|Hy]);
    try reflexivity; by apply elem_of_nil in Hx || by apply elem_of_nil in Hy.
Defined.

(** What [is_aligned_class] says, field by field. *)
Lemma is_aligned_class_fields (x y : ScheduleEntry) :
  is_aligned_class x y = true ↔
  class_name x = class_name y ∧ week_code x = week_code y ∧
  week_day x = week_day y ∧ room_number x = room_number y ∧
  Z.abs (slot_number x - slot_number y) = 1.
Proof.
  unfold is_aligned_class. rewrite !andb_true_iff. simpl.
  rewrite !String.eqb_eq, !Z.eqb_eq. tauto.
Qed.

Lemma is_aligned_class_sym (x y : ScheduleEntry) :
  is_aligned_class x y = is_aligned_class y x.
Proof.
  apply eq_true_iff_eq. rewrite !is_aligned_class_fields.
  replace (slot_number y - slot_number x)
    with (- (slot_number x - slot_number y)) by lia.
  rewrite Z.abs_opp. intuition congruence.
Qed.

(** X8. [is_aligned_class] is symmetric, does not look at [duration], and
    never holds between two entries that are [==]; in particular no entry
    is aligned with itself. *)
Theorem is_aligned_class_symmetric (x y : ScheduleEntry) :
  is_aligned_class x y = is_aligned_class y x ∧
  (∀ d d', is_aligned_class (set_duration d x) (set_duration d' y)
           = is_aligned_class x y) ∧
  (entry_eq x y = true → is_aligned_class x y = false) ∧
  is_aligned_class x x = false.
Proof.
  split_and!; [apply is_aligned_class_sym|done| |].
  - intros (_ & _ & Hslot & _)%entry_eq_same_five_fields.
    destruct (is_aligned_class x y) eqn:Hxy; [|done].
    apply is_aligned_class_fields in Hxy. lia.
  - destruct (is_aligned_class x x) eqn:Hxx; [|done].
    apply is_aligned_class_fields in Hxx. lia.
Qed.

(** Between aligned entries [__lt__] is decided by [slot_number]. *)
Lemma entry_lt_aligned (x y : ScheduleEntry) :
  is_aligned_class x y = true →
  entry_lt x y = (slot_number x <? slot_number y).
Proof.
  intros (Hc & Hw & Hd & Hr & Hs)%is_aligned_class_fields.
  unfold entry_lt, entry_key. simpl. rewrite Hw, Hd, !Z.eqb_refl.
  destruct (Z.eqb_spec (slot_number x) (slot_number y)); [lia|done].
Qed.

(** X9. Two aligned entries, given in either order, merge into one: the
    entry of the earlier slot, with its [duration] raised by 1. *)
Theorem merge_aligned_pair (a b : ScheduleEntry) :
  is_aligned_class a b = true →
  merge_list_of_classes [a; b]
  = Some (Ok [incr_duration (if slot_number a <? slot_number b then a else b)]).
Proof.
  intros Hab. rewrite merge_list_of_classes_long by (simpl; lia).
  cbn [list_sort insert_sorted].
  rewrite is_aligned_class_sym in Hab. rewrite (entry_lt_aligned b a Hab).
  pose proof Hab as (_ & _ & _ & _ & Hs)%is_aligned_class_fields.
  destruct (Z.ltb_spec (slot_number b) (slot_number a)),
    (Z.ltb_spec (slot_number a) (slot_number b)); try lia;
    cbn [merge_sorted merge_run].
  - by rewrite Hab.
  - rewrite is_aligned_class_sym in Hab. by rewrite Hab.
Qed.

Lemma merge_aligned_pair_witness :
  merge_list_of_classes [new_entry "A" 0 "R" 0 3; new_entry "A" 0 "R" 0 2]
  = Some (Ok [incr_duration (new_entry "A" 0 "R" 0 2)]).
Proof.
  apply (merge_aligned_pair (new_entry "A" 0 "R" 0 3) (new_entry "A" 0 "R" 0 2)).
  reflexivity.
Defined.

(** In a list without two [==] entries, ascending is strictly ascending. *)
Lemma ascending_strict (l : list ScheduleEntry) :
  ascending entry_lt l → NoDup (entry_key <$> l) →
  StronglySorted (λ x y, entry_lt x y = true) l.
Proof.
  induction 1 as [|x l Hl IH Hhd]; intros Hnd; [constructor|].
  rewrite fmap_cons in Hnd. apply NoDup_cons in Hnd as [Hx Hnd].
  specialize (IH Hnd). constructor; [done|].
  destruct Hhd as [|y l' Hyx]; [constructor|].
  assert (Hxy : entry_lt x y = true).
  { destruct (entry_lt x y) eqn:Hxy; [done|]. destruct Hx.
    rewrite (py_lt_total (entry_key x) (entry_key y)) by done.
    rewrite fmap_cons. by left. }
  constructor; [done|].
  apply StronglySorted_inv in IH as [_ Hall].
  eapply Forall_impl; [exact Hall|]. intros z Hyz. simpl in Hyz.
  by apply (py_lt_trans (entry_key x) (entry_key y) (entry_key z)).
Qed.

(** An entry behind the one just absorbed cannot be aligned with the
    absorbing entry: it would have to be [==] to the absorbed one. *)
Lemma not_aligned_behind (x y z : ScheduleEntry) :
  is_aligned_class x y = true → entry_lt x y = true → entry_lt y z = true →
  is_aligned_class x z = false.
Proof.
  intros Hxy Hlt Hyz. destruct (is_aligned_class x z) eqn:Hxz; [|done].
  rewrite (entry_lt_aligned x y Hxy) in Hlt. apply Z.ltb_lt in Hlt.
  apply is_aligned_class_fields in Hxy as (Hc & Hw & Hd & Hr & Hs).
  apply is_aligned_class_fields in Hxz as (Hc' & Hw' & Hd' & Hr' & Hs').
  apply entry_lt_lexicographic in Hyz. unfold lexicographic_spec in Hyz.
  rewrite <-Hc, <-Hw, <-Hd, <-Hr, <-Hc', <-Hw', <-Hd', <-Hr' in Hyz.
  unfold str_lexicographic in Hyz. rewrite !string_compare_refl in Hyz.
  destruct Hyz as [?|[_ [?|[_ [?|[Heq [?|[_ ?]]]]]]]]; try lia; done.
Qed.

Lemma merge_run_at_most_two (rest : list ScheduleEntry) (x : ScheduleEntry) :
  StronglySorted (λ x y, entry_lt x y = true) (x :: rest) → fresh rest →
  duration x ≤ 2 →
  (duration x = 2 → Forall (λ z, is_aligned_class x z = false) rest) →
  Forall (λ e, duration e ≤ 2) (merge_run x rest).
Proof.
  revert x. induction rest as [|y rest IH]; intros x Hsort Hfresh Hd Hfull.
  { by repeat constructor. }
  apply StronglySorted_inv in Hsort as [Hrest Hx].
  apply Forall_cons in Hx as [Hxy Hx].
  apply Forall_cons in Hfresh as [Hy Hfresh].
  pose proof Hrest as [Hrest' Hyz]%StronglySorted_inv.
  cbn [merge_run]. destruct (is_aligned_class x y) eqn:Hal.
  - assert (duration x ≠ 2).
    { intros H2. apply Hfull in H2. apply Forall_cons in H2 as [H2 _].
      congruence. }
    apply IH; [by constructor|done|simpl; lia|]. intros _.
    eapply Forall_impl; [exact Hyz|]. intros z Hz.
    rewrite is_aligned_class_incr_duration.
    by apply (not_aligned_behind x y z).
  - constructor; [done|]. apply IH; [done|done|lia|]. intros ?. lia.
Qed.

(** X10. From fresh entries of which no two are [==], no returned entry
    has a [duration] above 2: a class of three slots or more in a row never
    comes out as one entry. *)
Theorem merge_duration_at_most_two (l l' : list ScheduleEntry) :
  fresh l → NoDup (entry_key <$> l) →
  merge_list_of_classes l = Some (Ok l') →
  Forall (λ e, duration e ≤ 2) l'.
Proof.
  intros Hfresh Hnd Hm. destruct (decide (length l < 2)%nat) as [Hlen|Hlen].
  { by rewrite merge_list_of_classes_short in Hm. }
  rewrite merge_list_of_classes_long in Hm by lia. injection Hm as <-.
  assert (Hfs : fresh (list_sort entry_lt l)).
  { unfold fresh. by rewrite list_sort_perm. }
  assert (Hss : StronglySorted (λ x y, entry_lt x y = true)
                  (list_sort entry_lt l)).
  { apply ascending_strict.
    - apply list_sort_ascending, entry_lt_asym.
    - by rewrite list_sort_perm. }
  destruct (list_sort entry_lt l) as [|x rest]; [constructor|].
  apply Forall_cons in Hfs as [Hx Hrest]. simpl.
  apply merge_run_at_most_two; [done|done|lia|]. intros ?. lia.
Qed.

Lemma merge_duration_at_most_two_witness :
  Forall (λ e, duration e ≤ 2)
    [set_duration 2 (new_entry "A" 0 "R" 0 0);
     set_duration 2 (new_entry "A" 0 "R" 0 2)].
Proof.
  apply (merge_duration_at_most_two
           [new_entry "A" 0 "R" 0 0; new_entry "A" 0 "R" 0 1;
            new_entry "A" 0 "R" 0 2; new_entry "A" 0 "R" 0 3]).
  - by repeat constructor.
  - apply (bool_decide_unpack (NoDup _)). by vm_compute.
  - reflexivity.
Defined.

(** ** The name normaliser *)

(** X11. [get_class_name] raises nothing, whatever the title and the
    table: [name.split(" [")[1]] is only evaluated for a title in which
    [" ["] occurs, and such a title has a second piece. *)
Theorem get_class_name_never_raises (table : gmap string string)
    (name : string) :
  (∃ res_name, get_class_name table name = Ok res_name) ∧
  (str_contains " [" name = true →
   ∃ piece, getitem (str_split " [" name) 1 = Ok piece).
Proof.
  split; [apply get_class_name_total|]. intros Hname.
  destruct (str_split_aux_second " [" name) as (p & q & ps & Hsplit);
    [done..|].
  unfold str_split. rewrite Hsplit. exists q.
  apply (getitem_middle_next [] p q ps).
Qed.

(** X12. A title without [" ["] comes back as the alias the table has for
    it, and unchanged when the table has none. *)
Theorem get_class_name_without_bracket (table : gmap string string)
    (name : string) :
  str_contains " [" name = false →
  get_class_name table name = Ok (alias_of table name) ∧
  (table !! name = None → get_class_name table name = Ok name).
Proof. apply get_class_name_plain. Qed.

Lemma get_class_name_without_bracket_witness :
  get_class_name class_names_cast "Микропроцессорные системы и средства"
  = Ok (alias_of class_names_cast "Микропроцессорные системы и средства") ∧
  (class_names_cast !! "Микропроцессорные системы и средства" = None →
   get_class_name class_names_cast "Микропроцессорные системы и средства"
   = Ok "Микропроцессорные системы и средства").
Proof.
  apply (get_class_name_without_bracket class_names_cast
           "Микропроцессорные системы и средства").
  reflexivity.
Defined.

(** X13. A title in which [" ["] occurs once comes back as the alias of
    what is in front of it (or that text itself, when the table has no
    alias), followed by [" ["] and the unchanged rest. *)
Theorem get_class_name_with_one_bracket (table : gmap string string)
    (base rest : string) :
  str_contains " [" base = false → str_contains " [" rest = false →
  get_class_name table (base +:+ " [" +:+ rest)
  = Ok (alias_of table base +:+ " [" +:+ rest).
Proof. apply get_class_name_one_bracket. Qed.

Lemma get_class_name_with_one_bracket_witness :
  get_class_name class_names_cast ("Физика" +:+ " [" +:+ "Лек]")
  = Ok (alias_of class_names_cast "Физика" +:+ " [" +:+ "Лек]").
Proof.
  apply (get_class_name_with_one_bracket class_names_cast "Физика" "Лек]");
    reflexivity.
Defined.

(** ** The lists of classes *)

Section ListsOfClasses.
Variable table : gmap string string.
Variable fetch : gmap string string → string → list RawClass.

Lemma normalised_ok (name : string) :
  get_class_name table name = Ok (normalised table name).
Proof.
  unfold normalised. by destruct (get_class_name_total table name) as [r ->].
Qed.

Lemma by_educator_classes_spec (group educator : string)
    (raw_schedule : list RawClass) (class_list : list ScheduleEntry) :
  by_educator_classes table group educator raw_schedule class_list
  = Ok (class_list ++
          (educator_entry table group
             <$> List.filter (taught_by educator) raw_schedule)).
Proof.
  revert class_list.
  induction raw_schedule as [|dc raw IH]; intros class_list.
  - simpl. by rewrite app_nil_r.
  - cbn [by_educator_classes List.filter].
    change (taught_by educator dc) with (py_eq (Class_TeacherFull dc) educator).
    destruct (py_eq (Class_TeacherFull dc) educator).
    + rewrite normalised_ok. cbn [mbind result_bind]. rewrite IH.
      by rewrite <-app_assoc.
    + apply IH.
Qed.

Lemma by_educator_groups_spec (groups : list string) (educator : string)
    (cookie : gmap string string) (class_list : list ScheduleEntry) :
  by_educator_groups table fetch groups educator cookie class_list
  = Ok (class_list ++
          concat (educator_entries table fetch educator cookie <$> groups)).
Proof.
  revert class_list. induction groups as [|g groups IH]; intros class_list.
  - simpl. by rewrite app_nil_r.
  - cbn [by_educator_groups]. rewrite by_educator_classes_spec.
    cbn [mbind result_bind]. rewrite IH. by rewrite <-app_assoc.
Qed.

Lemma by_group_classes_spec (raw_schedule : list RawClass)
    (class_list : list ScheduleEntry) :
  by_group_classes table raw_schedule class_list
  = Ok (class_list ++ (group_entry table <$> raw_schedule)).
Proof.
  revert class_list.
  induction raw_schedule as [|dc raw IH]; intros class_list; simpl.
  - by rewrite app_nil_r.
  - rewrite normalised_ok. cbn [mbind result_bind]. rewrite IH.
    by rewrite <-app_assoc.
Qed.

End ListsOfClasses.


(** X15. The list for several groups is the lists for the groups one
    after the other: the list of [groups1 + groups2] is the list of
    [groups1] followed by the list of [groups2]. *)
Theorem create_list_of_classes_by_educator_app
    (table : gmap string string)
    (fetch : gmap string string → string → list RawClass)
    (groups1 groups2 : list string) (educator : string)
    (cookie : gmap string string) :
  ∃ l1 l2,
    create_list_of_classes_by_educator table fetch groups1 educator cookie
    = Ok l1 ∧
    create_list_of_classes_by_educator table fetch groups2 educator cookie
    = Ok l2 ∧
    create_list_of_classes_by_educator table fetch (groups1 ++ groups2)
      educator cookie
    = Ok (l1 ++ l2).
Proof.
  eexists _, _. split_and!; [apply by_educator_groups_spec..|].
  unfold create_list_of_classes_by_educator.
  rewrite by_educator_groups_spec. by rewrite fmap_app, concat_app.
Qed.


(** X17. For a single group all of whose records name the educator, the
    list for the educator is the list for the group with a space and the
    group put behind every title. *)
Theorem create_list_of_classes_by_educator_whole_group
    (table : gmap string string)
    (fetch : gmap string string → string → list RawClass)
    (group educator : string) (cookie : gmap string string) :
  Forall (λ dc, Class_TeacherFull dc = educator) (fetch cookie group) →
  ∃ l,
    create_list_of_classes_by_group table fetch group cookie = Ok l ∧
    create_list_of_classes_by_educator table fetch [group] educator cookie
    = Ok ((λ e, set_class_name ((class_name e +:+ " ") +:+ group) e) <$> l).
Proof.
  intros Hall. eexists. split; [apply by_group_classes_spec|].
  unfold create_list_of_classes_by_educator.
  rewrite by_educator_groups_spec. simpl. rewrite app_nil_r. f_equal.
  unfold educator_entries. rewrite <-list_fmap_compose.
  induction Hall as [|dc raw Hdc _ IH]; [done|].
  cbn [List.filter].
  change (taught_by educator dc) with (String.eqb (Class_TeacherFull dc) educator).
  rewrite Hdc, String.eqb_refl. cbn [fmap list_fmap]. by rewrite IH.
Qed.

Lemma create_list_of_classes_by_educator_whole_group_witness :
  ∃ l,
    create_list_of_classes_by_group class_names_cast
      (λ _ _, [mkRawClass "Физика [Лек]" "Иванов" 0 "4340" 1 2])
      "ПИН-32" ∅ = Ok l ∧
    create_list_of_classes_by_educator class_names_cast
      (λ _ _, [mkRawClass "Физика [Лек]" "Иванов" 0 "4340" 1 2])
      ["ПИН-32"] "Иванов" ∅
    = Ok ((λ e, set_class_name ((class_name e +:+ " ") +:+ "ПИН-32") e) <$> l).
Proof.
  apply (create_list_of_classes_by_educator_whole_group class_names_cast
           (λ _ _, [mkRawClass "Физика [Лек]" "Иванов" 0 "4340" 1 2])
           "ПИН-32" "Иванов" ∅).
  by repeat constructor.
Defined.

Lemma str_append_assoc (s t u : string) : (s +:+ t) +:+ u = s +:+ t +:+ u.
Proof.
  induction s as [|c s IH]; [done|].
  change (String c ((s +:+ t) +:+ u) = String c (s +:+ t +:+ u)).
  by rewrite IH.
Qed.

(** Two texts that end in a space and a word without spaces are equal only
    if the words are. *)
Lemma str_last_word (t1 t2 g1 g2 : string) :
  str_contains " " g1 = false → str_contains " " g2 = false →
  (t1 +:+ " ") +:+ g1 = (t2 +:+ " ") +:+ g2 → g1 = g2.
Proof.
  intros Hg1 Hg2. rewrite !str_append_assoc. revert t2.
  induction t1 as [|c t1 IH]; intros [|c' t2] Heq.
  - by injection Heq.
  - change (String " " g1 = String c' (t2 +:+ " " +:+ g2)) in Heq.
    injection Heq as _ ->. by rewrite str_contains_middle in Hg1.
  - change (String c (t1 +:+ " " +:+ g1) = String " " g2) in Heq.
    injection Heq as _ <-. by rewrite str_contains_middle in Hg2.
  - change (String c (t1 +:+ " " +:+ g1) = String c' (t2 +:+ " " +:+ g2))
      in Heq.
    injection Heq as _ Heq. by apply (IH t2).
Qed.

(** X18. Classes of different groups are never merged: when neither group
    name contains a space, an entry made for one group is neither aligned
    with nor [==] to an entry made for another group, whatever the
    records. *)
Theorem educator_entries_of_groups_apart (table : gmap string string)
    (group1 group2 : string) (dc1 dc2 : RawClass) :
  str_contains " " group1 = false → str_contains " " group2 = false →
  group1 ≠ group2 →
  is_aligned_class (educator_entry table group1 dc1)
    (educator_entry table group2 dc2) = false ∧
  entry_eq (educator_entry table group1 dc1) (educator_entry table group2 dc2)
  = false.
Proof.
  intros Hg1 Hg2 Hne.
  assert (Hname : class_name (educator_entry table group1 dc1)
                  ≠ class_name (educator_entry table group2 dc2)).
  { simpl. intros Heq. by apply Hne, (str_last_word _ _ _ _ Hg1 Hg2 Heq). }
  split.
  - destruct (is_aligned_class _ _) eqn:Hal; [|done].
    by apply is_aligned_class_fields in Hal as [? _].
  - destruct (entry_eq _ _) eqn:Heq; [|done].
    by apply entry_eq_same_five_fields in Heq as (_ & _ & _ & _ & ?).
Qed.

Lemma educator_entries_of_groups_apart_witness :
  is_aligned_class
    (educator_entry class_names_cast "ПИН-32"
       (mkRawClass "Физика [Лек]" "Иванов" 0 "4340" 1 1))
    (educator_entry class_names_cast "ПИН-33"
       (mkRawClass "Физика [Лек]" "Иванов" 0 "4340" 1 2)) = false ∧
  entry_eq
    (educator_entry class_names_cast "ПИН-32"
       (mkRawClass "Физика [Лек]" "Иванов" 0 "4340" 1 1))
    (educator_entry class_names_cast "ПИН-33"
       (mkRawClass "Физика [Лек]" "Иванов" 0 "4340" 1 2)) = false.
Proof.
  apply (educator_entries_of_groups_apart class_names_cast "ПИН-32" "ПИН-33");
    [reflexivity | reflexivity | discriminate].
Defined.

(** ** The cookie *)

Lemma str_prefix_drop (p s : string) :
  String.prefix p s = true → s = p +:+ str_drop (String.length p) s.
Proof.
  revert s. induction p as [|a p IH]; intros s Hp; [by destruct s|].
  destruct s as [|b s]; [done|]. rewrite str_prefix_cons in Hp.
  destruct (ascii_dec a b) as [->|]; [|done].
  change (String b s = String b (p +:+ str_drop (String.length p) s)).
  f_equal. by apply IH.
Qed.

Lemma cookie_run_spec (s : string) :
  s = (cookie_run s).1 +:+ (cookie_run s).2 ∧
  all_cookie_chars (cookie_run s).1 = true.
Proof.
  induction s as [|c s [IH1 IH2]]; [done|]. cbn [cookie_run].
  destruct (is_cookie_char c) eqn:Hc; [|done].
  destruct (cookie_run s) as [run rest]. cbn [fst snd] in *.
  split.
  - change (String c s = String c (run +:+ rest)). by rewrite <-IH1.
  - cbn [all_cookie_chars]. by rewrite Hc.
Qed.

Lemma cookie_run_ahead (run rest : string) :
  all_cookie_chars run = true → String.prefix ";" rest = true →
  cookie_run (run +:+ rest) = (run, rest).
Proof.
  intros Hrun Hrest. induction run as [|c run IH].
  - destruct rest as [|c rest]; [done|]. rewrite str_prefix_cons in Hrest.
    destruct (ascii_dec ";" c) as [<-|]; done.
  - simpl in Hrun. apply andb_true_iff in Hrun as [Hc Hrun].
    change (String c run +:+ rest) with (String c (run +:+ rest)).
    cbn [cookie_run]. by rewrite Hc, IH.
Qed.

Lemma cookie_match_at_sound (s found : string) :
  cookie_match_at s = Some found →
  ∃ post, s = found +:+ post ∧ is_cookie found.
Proof.
  unfold cookie_match_at. destruct (String.prefix "wl=" s) eqn:Hp; [|done].
  apply str_prefix_drop in Hp. simpl String.length in Hp.
  destruct (cookie_run_spec (str_drop 3 s)) as [Hs Hrun].
  destruct (cookie_run (str_drop 3 s)) as [[|c run] rest]; [done|].
  cbn [fst snd] in Hs, Hrun.
  destruct (String.prefix ";" rest) eqn:Hsemi; [|done].
  intros [= <-]. apply (str_prefix_drop ";" rest) in Hsemi.
  simpl String.length in Hsemi. exists (str_drop 1 rest). split.
  - rewrite Hs in Hp. rewrite Hsemi in Hp. etrans; [exact Hp|].
    by rewrite !str_append_assoc.
  - exists (String c run). split_and!; [done|discriminate|exact Hrun].
Qed.

Lemma cookie_match_at_complete (run post : string) :
  run ≠ "" → all_cookie_chars run = true →
  cookie_match_at ("wl=" +:+ run +:+ ";" +:+ post)
  = Some ("wl=" +:+ run +:+ ";").
Proof.
  intros Hne Hrun. unfold cookie_match_at. rewrite str_prefix_append.
  change (str_drop 3 ("wl=" +:+ run +:+ ";" +:+ post))
    with (run +:+ ";" +:+ post).
  rewrite cookie_run_ahead by (done || apply str_prefix_append).
  destruct run as [|c run]; [done|]. by rewrite str_prefix_append.
Qed.

Lemma cookie_search_sound (text found : string) :
  cookie_search text = Some found →
  ∃ pre post, text = pre +:+ found +:+ post ∧ is_cookie found.
Proof.
  induction text as [|c text IH]; cbn [cookie_search].
  - destruct (cookie_match_at "") eqn:Hm; [|done]. intros [= ->].
    apply cookie_match_at_sound in Hm as (post & ? & ?). by exists "", post.
  - destruct (cookie_match_at (String c text)) eqn:Hm.
    + intros [= ->].
      apply cookie_match_at_sound in Hm as (post & ? & ?). by exists "", post.
    + intros (pre & post & -> & ?)%IH. by exists (String c pre), post.
Qed.

Lemma cookie_search_complete (pre run post : string) :
  run ≠ "" → all_cookie_chars run = true →
  ∃ found, cookie_search (pre +:+ "wl=" +:+ run +:+ ";" +:+ post) = Some found.
Proof.
  intros Hne Hrun. induction pre as [|c pre IH].
  - exists ("wl=" +:+ run +:+ ";").
    change ("" +:+ "wl=" +:+ run +:+ ";" +:+ post)
      with (String "w" ("l=" +:+ run +:+ ";" +:+ post)).
    cbn [cookie_search].
    change (String "w" ("l=" +:+ run +:+ ";" +:+ post))
      with ("wl=" +:+ run +:+ ";" +:+ post).
    by rewrite cookie_match_at_complete.
  - change (String c pre +:+ "wl=" +:+ run +:+ ";" +:+ post)
      with (String c (pre +:+ "wl=" +:+ run +:+ ";" +:+ post)).
    cbn [cookie_search]. destruct (cookie_match_at _); [by eexists|done].
Qed.

(** X19. When the cookie code sets [cookie], it is a dictionary with the
    one key ["Cookie"], and its value is a part of the response text of
    the form [wl=], one or more characters of [a-f0-9], [;]. *)
Theorem get_cookie_sound (text : string) (cookie : gmap string string) :
  get_cookie text = CookieSet cookie →
  ∃ pre found post,
    text = pre +:+ found +:+ post ∧ is_cookie found ∧
    cookie = <["Cookie" := found]> ∅.
Proof.
  unfold get_cookie. destruct (cookie_search text) as [found|] eqn:Hs; [|done].
  intros [= <-]. apply cookie_search_sound in Hs as (pre & post & ? & ?).
  by exists pre, found, post.
Qed.

Lemma get_cookie_sound_witness :
  ∃ pre found post,
    "<script>document.cookie='wl=0a1b2c3d4e5f;path=/';</script>"
    = pre +:+ found +:+ post ∧ is_cookie found ∧
    (<["Cookie" := "wl=0a1b2c3d4e5f;"]> ∅ : gmap string string)
    = <["Cookie" := found]> ∅.
Proof.
  apply (get_cookie_sound
           "<script>document.cookie='wl=0a1b2c3d4e5f;path=/';</script>").
  reflexivity.
Defined.

(** X20. The cookie code ends in [exit()] only if the response text has no
    part of the form [wl=], one or more characters of [a-f0-9], [;]: a text
    with such a part sets [cookie], and a text that begins with one sets it
    to that part. *)
Theorem get_cookie_complete (pre run post : string) :
  run ≠ "" → all_cookie_chars run = true →
  get_cookie (pre +:+ "wl=" +:+ run +:+ ";" +:+ post) ≠ Exited ∧
  get_cookie ("wl=" +:+ run +:+ ";" +:+ post)
  = CookieSet (<["Cookie" := "wl=" +:+ run +:+ ";"]> ∅).
Proof.
  intros Hne Hrun. unfold get_cookie. split.
  - by destruct (cookie_search_complete pre run post Hne Hrun) as [found ->].
  - change ("wl=" +:+ run +:+ ";" +:+ post)
      with (String "w" ("l=" +:+ run +:+ ";" +:+ post)).
    cbn [cookie_search].
    change (String "w" ("l=" +:+ run +:+ ";" +:+ post))
      with ("wl=" +:+ run +:+ ";" +:+ post).
    by rewrite cookie_match_at_complete.
Qed.

Lemma get_cookie_complete_witness :
  get_cookie ("<html>" +:+ "wl=" +:+ "abcdef0123456789" +:+ ";" +:+ "</html>")
  ≠ Exited ∧
  get_cookie ("wl=" +:+ "abcdef0123456789" +:+ ";" +:+ "</html>")
  = CookieSet (<["Cookie" := "wl=" +:+ "abcdef0123456789" +:+ ";"]> ∅).
Proof.
  apply (get_cookie_complete "<html>" "abcdef0123456789" "</html>");
    [discriminate | reflexivity].
Defined.

(** ** The calendar *)

Lemma events_of_fmap {B : Type} (f : Event → B)
    (start_date : datetime) (academic_hour short long repeat_number : Z)
    (todo : list ScheduleEntry) (rng : entropy) :
  (∀ u event, f (set_uid u event) = f event) →
  f <$> events_of start_date academic_hour short long repeat_number todo rng
  = (λ entry,
       f (create_event start_date academic_hour short long repeat_number
            entry rng).1) <$> todo.
Proof.
  intros Hf.
  assert (Hrng : ∀ entry rng1 rng2,
    f (create_event start_date academic_hour short long repeat_number
         entry rng1).1
    = f (create_event start_date academic_hour short long repeat_number
           entry rng2).1).
  { intros entry rng1 rng2.
    by rewrite <-(Hf "" (create_event _ _ _ _ _ entry rng1).1),
      <-(Hf "" (create_event _ _ _ _ _ entry rng2).1). }
  revert rng. induction todo as [|entry todo IH]; intros rng; [done|].
  cbn [events_of create_event uuid4 fmap list_fmap]. f_equal.
  etrans; [apply IH|]. apply list_fmap_ext. intros _ e _. apply Hrng.
Qed.

(** X21. The calendar has one event per entry of the schedule, in the
    order of the schedule: the summary of an event is the [class_name] of
    its entry, the location its [room_number], start and end are those
    computed from the entry, and every event repeats weekly with interval 4,
    [repeat_number] times. *)
Theorem create_ics_file_events
    (start_date : datetime) (academic_hour short long repeat_number : Z)
    (schedule : list ScheduleEntry) (rng : entropy) :
  let run := create_ics_file start_date academic_hour short long
               repeat_number schedule rng in
  summary <$> cal run = class_name <$> schedule ∧
  location <$> cal run = room_number <$> schedule ∧
  dtstart <$> cal run
  = start_time start_date academic_hour short long <$> schedule ∧
  dtend <$> cal run
  = end_time start_date academic_hour short long <$> schedule ∧
  rrule <$> cal run = (λ _, mkRRule "weekly" 4 repeat_number) <$> schedule.
Proof.
  intros run. subst run. rewrite create_ics_file_cal.
  by rewrite !events_of_fmap.
Qed.

(** X22. With an academic hour of positive length, a short break that is
    not negative and a duration of at least one slot, an event ends after it
    starts. *)
Theorem event_ends_after_start
    (start_date : datetime) (academic_hour short long repeat_number : Z)
    (entry : ScheduleEntry) (rng : entropy) :
  0 < academic_hour → 0 ≤ short → 1 ≤ duration entry →
  let event := (create_event start_date academic_hour short long
                  repeat_number entry rng).1 in
  dtstart event < dtend event.
Proof.
  intros Hah Hshort Hd event. subst event. simpl.
  unfold end_time, class_duration, pair_duration, minutes. nia.
Qed.

Lemma event_ends_after_start_witness :
  let event := (create_event (datetime_of_date 2024 2 5) 40 10 40 5
                  (new_entry "A" 0 "R" 0 0) (λ _, "u")).1 in
  dtstart event < dtend event.
Proof.
  apply (event_ends_after_start (datetime_of_date 2024 2 5) 40 10 40 5
           (new_entry "A" 0 "R" 0 0) (λ _, "u")); simpl; lia.
Defined.

(** X23. On one day of one week code the events keep the order of the
    slots: when a slot takes a positive time ([2 * academic_hour_duration +
    10 > 0]) and the long break is not shorter than the short one, the entry
    of the later slot starts later. *)
Theorem start_time_increases_with_slot
    (start_date : datetime) (academic_hour short long : Z)
    (x y : ScheduleEntry) :
  week_code x = week_code y → week_day x = week_day y →
  0 < 2 * academic_hour + 10 → short ≤ long →
  slot_number x < slot_number y →
  start_time start_date academic_hour short long x
  < start_time start_date academic_hour short long y.
Proof.
  intros Hw Hd Hpos Hlong Hslot.
  unfold start_time, first_class_date, pair_duration, minutes.
  rewrite Hw, Hd.
  destruct (Z.gtb_spec (slot_number x) 2), (Z.gtb_spec (slot_number y) 2);
    nia.
Qed.

Lemma start_time_increases_with_slot_witness :
  start_time (datetime_of_date 2024 2 5) 40 10 40 (new_entry "A" 0 "R" 0 2)
  < start_time (datetime_of_date 2024 2 5) 40 10 40 (new_entry "B" 0 "Q" 0 3).
Proof.
  apply (start_time_increases_with_slot (datetime_of_date 2024 2 5) 40 10 40
           (new_entry "A" 0 "R" 0 2) (new_entry "B" 0 "Q" 0 3));
    simpl; (reflexivity || lia).
Defined.

(** X24. Between the end of a one-slot class and the start of the class in
    the next slot of the same day the calendar leaves 10 minutes, whatever
    [short_recreation_duration] is, and [10 + long_recreation_duration -
    short_recreation_duration] minutes between the slots 2 and 3. *)
Theorem break_between_slots
    (start_date : datetime) (academic_hour short long : Z)
    (name name' room room' : string) (code day slot : Z) :
  start_time start_date academic_hour short long
    (new_entry name' code room' day (slot + 1))
  - end_time start_date academic_hour short long
      (new_entry name code room day slot)
  = 10 + (if slot =? 2 then long - short else 0).
Proof.
  unfold end_time, start_time, class_duration, first_class_date,
    pair_duration, minutes. simpl.
  destruct (Z.gtb_spec (slot + 1) 2), (Z.gtb_spec slot 2),
    (Z.eqb_spec slot 2); lia.
Qed.

(** X25. A merged entry of two slots ends [10 - short_recreation_duration]
    minutes before the class of its second slot ends, and a further
    [long_recreation_duration - short_recreation_duration] minutes earlier
    when the two slots are 2 and 3: the long break between them is not
    counted. *)
Theorem merged_pair_end_time
    (start_date : datetime) (academic_hour short long : Z)
    (name room : string) (code day slot : Z) :
  end_time start_date academic_hour short long
    (new_entry name code room day (slot + 1))
  - end_time start_date academic_hour short long
      (incr_duration (new_entry name code room day slot))
  = 10 - short + (if slot =? 2 then long - short else 0).
Proof.
  unfold end_time, start_time, class_duration, first_class_date,
    pair_duration, minutes. simpl.
  destruct (Z.gtb_spec (slot + 1) 2), (Z.gtb_spec slot 2),
    (Z.eqb_spec slot 2); lia.
Qed.

Lemma weekday_add_days (t : datetime) (n : Z) :
  weekday (t + days n) = (weekday t + n) mod 7.
Proof.
  unfold weekday. rewrite toordinal_add_days.
  rewrite Zplus_mod_idemp_l. f_equal. lia.
Qed.

(** X26. For a weekday from 0 to 6, the first occurrence falls on the
    weekday of the entry, except in the case that moves the entry four
    weeks on ([week_day] before the weekday of the start of the semester,
    [week_code] 0): there it falls on the weekday before that of the
    entry. *)
Theorem first_class_date_weekday (start_date : datetime)
    (entry : ScheduleEntry) :
  0 ≤ week_day entry < 7 →
  weekday (first_class_date start_date entry)
  = if (week_day entry <? weekday start_date) && (week_code entry =? 0)
    then (week_day entry - 1) mod 7
    else week_day entry.
Proof.
  intros Hday. unfold first_class_date, first_day_of_semester.
  destruct (_ && _); rewrite weekday_add_days.
  - replace (weekday start_date
             + ((week_code entry + 4) * 7
                + (week_day entry - weekday start_date - 1)))
      with (week_day entry - 1 + (week_code entry + 4) * 7) by lia.
    by rewrite Z.mod_add.
  - replace (weekday start_date
             + (week_code entry * 7 + (week_day entry - weekday start_date)))
      with (week_day entry + week_code entry * 7) by lia.
    rewrite Z.mod_add by done. by apply Z.mod_small.
Qed.

Lemma first_class_date_weekday_witness :
  weekday (first_class_date (datetime_of_date 2024 2 7)
             (new_entry "A" 0 "R" 1 0))
  = if (week_day (new_entry "A" 0 "R" 1 0)
        <? weekday (datetime_of_date 2024 2 7))
       && (week_code (new_entry "A" 0 "R" 1 0) =? 0)
    then (week_day (new_entry "A" 0 "R" 1 0) - 1) mod 7
    else week_day (new_entry "A" 0 "R" 1 0).
Proof.
  apply (first_class_date_weekday (datetime_of_date 2024 2 7)
           (new_entry "A" 0 "R" 1 0)).
  simpl. lia.
Defined.

(** X27. For a weekday from 0 to 6 and a week code that is not negative,
    the first occurrence is not before the start of the semester. *)
Theorem first_class_date_not_before_start (start_date : datetime)
    (entry : ScheduleEntry) :
  0 ≤ week_day entry < 7 → 0 ≤ week_code entry →
  start_date ≤ first_class_date start_date entry.
Proof.
  intros Hday Hcode. unfold first_class_date, first_day_of_semester, days.
  pose proof (weekday_range start_date) as Hw.
  destruct (Z.ltb_spec (week_day entry) (weekday start_date)),
    (Z.eqb_spec (week_code entry) 0); simpl; lia.
Qed.

Lemma first_class_date_not_before_start_witness :
  datetime_of_date 2024 2 7
  ≤ first_class_date (datetime_of_date 2024 2 7) (new_entry "A" 3 "R" 0 0).
Proof.
  apply (first_class_date_not_before_start (datetime_of_date 2024 2 7)
           (new_entry "A" 3 "R" 0 0)); simpl; lia.
Defined.

(** ** The script *)




(** ** The sort of the merger *)

Lemma insert_sorted_stable (k : Z * (Z * (Z * (string * string))))
    (x : ScheduleEntry) (l : list ScheduleEntry) :
  filter (λ e, entry_key e = k) (insert_sorted entry_lt x l)
  = filter (λ e, entry_key e = k) (x :: l).
Proof.
  induction l as [|y l IH]; [done|]. cbn [insert_sorted].
  destruct (entry_lt y x) eqn:Hyx; [|done].
  rewrite filter_cons, IH, !filter_cons.
  destruct (decide (entry_key y = k)) as [Hy|Hy]; [|done].
  destruct (decide (entry_key x = k)) as [Hx|Hx]; [|done].
  unfold entry_lt in Hyx. by rewrite Hy, Hx, py_lt_irrefl in Hyx.
Qed.

(** X29. [class_list.sort()], with which the merger begins, rearranges the
    entries without adding or dropping any, leaves no entry directly
    followed by a smaller one, and is stable: entries that are [==] stay in
    the order in which they were given. *)
Theorem list_sort_entries (l : list ScheduleEntry) :
  list_sort entry_lt l ≡ₚ l ∧
  ascending entry_lt (list_sort entry_lt l) ∧
  (∀ k, filter (λ e, entry_key e = k) (list_sort entry_lt l)
        = filter (λ e, entry_key e = k) l).
Proof.
  split_and!.
  - apply list_sort_perm.
  - apply list_sort_ascending, entry_lt_asym.
  - intros k. induction l as [|x l IH]; [done|]. cbn [list_sort].
    by rewrite insert_sorted_stable, !filter_cons, IH.
Qed.
